(** * garmin-mcp-cloud: the credential lifecycle of the Garmin client

    A shallow embedding of [token-refresh.ts] (OAuth1 signing, consumer
    key cache, OAuth1 -> OAuth2 exchange) and [garmin-client.ts] (access
    token supplier and authenticated GET / POST / PUT), with the
    properties of the specification stated over it.

    Conventions of the embedding.
    - A JavaScript string is the [string] of its UTF-8 bytes (every
      constant of the code is ASCII; lone surrogates, on which
      [encodeURIComponent] throws, are outside the model).
    - A number is a [Z] (epoch seconds, durations, HTTP statuses): the
      integer-valued doubles; the sum of a clock reading and a duration
      is rounded as a double sum is ([js_add]).
    - The KV namespace is a [gmap] from keys to entries; an entry holds a
      JSON document and the [expirationTtl] it was written with.
      [JSON.stringify] and [JSON.parse] are the identity on documents.
    - Asynchronous code runs sequentially inside one invocation, so an
      [async] function is a state-and-exception computation [M A]. *)

From Stdlib Require Import ZArith NArith Ascii String List Lia Bool.
From stdpp Require Import base option strings pretty gmap.

Local Open Scope Z_scope.

(** * Part I: the program

    Each definition below follows the function of the same name in the
    sources; helpers that stand for a JavaScript built-in or for a local
    constant of a function say so. *)

(** ** Strings as the code uses them *)

Module Str.

(** [Array.prototype.join]. *)
Fixpoint join (sep : string) (l : list string) : string :=
  match l with
  | [] => EmptyString
  | [x] => x
  | x :: rest => x +:+ sep +:+ join sep rest
  end.

Fixpoint concat_map (f : ascii -> string) (s : string) : string :=
  match s with
  | EmptyString => EmptyString
  | String c rest => f c +:+ concat_map f rest
  end.

Definition char (c : ascii) : string := String c EmptyString.

(** Membership of a character in a character class. *)
Fixpoint mem (c : ascii) (cls : string) : bool :=
  match cls with
  | EmptyString => false
  | String d rest => Ascii.eqb c d || mem c rest
  end.

Definition between (lo hi c : ascii) : bool :=
  (N_of_ascii lo <=? N_of_ascii c)%N && (N_of_ascii c <=? N_of_ascii hi)%N.

Definition is_alpha (c : ascii) : bool :=
  between "A" "Z" c || between "a" "z" c.

Definition is_digit (c : ascii) : bool := between "0" "9" c.

(** [String.prototype.toUpperCase] on the ASCII range. *)
Definition upper_char (c : ascii) : ascii :=
  if between "a" "z" c then ascii_of_N (N_of_ascii c - 32) else c.

Definition toUpperCase (s : string) : string :=
  concat_map (fun c => char (upper_char c)) s.

(** One hexadecimal digit, lowercase as [Number.prototype.toString(16)]
    prints it. *)
Definition hex_digit (n : N) : ascii :=
  match String.get (N.to_nat n) "0123456789abcdef" with
  | Some c => c
  | None => "0"%char
  end.

(** [n.toString(16)] for a code unit below 256: no padding. *)
Definition toString16 (n : N) : string :=
  if (n <? 16)%N then char (hex_digit n)
  else String (hex_digit (n / 16)) (char (hex_digit (n mod 16))).

(** [s.padStart(2, "0")] for the one or two digits of [toString16]. *)
Definition padStart2 (s : string) : string :=
  match s with
  | String c EmptyString => String "0" (char c)
  | EmptyString => String "0" (char "0")
  | _ => s
  end.

End Str.

(** ** The canonical signer: percent-encoding *)

(** The characters [encodeURIComponent] leaves alone (ECMAScript,
    uriUnescaped): letters, digits and [- _ . ! ~ * ' ( )]. *)
Definition uriUnescaped (c : ascii) : bool :=
  Str.is_alpha c || Str.is_digit c || Str.mem c "-_.!~*'()".

(** RFC 3986 unreserved characters. *)
Definition rfc3986_unreserved (c : ascii) : bool :=
  Str.is_alpha c || Str.is_digit c || Str.mem c "-._~".

(** The built-in [encodeURIComponent] on UTF-8 bytes: a byte outside
    uriUnescaped becomes [%XX] with uppercase hexadecimal digits. *)
Definition encodeURIComponent_char (c : ascii) : string :=
  if uriUnescaped c then Str.char c
  else
    let n := N_of_ascii c in
    String "%" (String (Str.upper_char (Str.hex_digit (n / 16)))
                  (Str.char (Str.upper_char (Str.hex_digit (n mod 16))))).

Definition encodeURIComponent (s : string) : string :=
  Str.concat_map encodeURIComponent_char s.

(** The callback of [percentEncode]:
    [(c) => "%" + c.charCodeAt(0).toString(16).toUpperCase()]. *)
Definition escape_callback (c : ascii) : string :=
  "%" +:+ Str.toUpperCase (Str.toString16 (N_of_ascii c)).

(** [s.replace(/[!'()*]/g, f)]: every character of the class is replaced
    by the callback's result. *)
Definition replace_class (cls : string) (f : ascii -> string) (s : string)
  : string :=
  Str.concat_map (fun c => if Str.mem c cls then f c else Str.char c) s.

Definition percentEncode (str : string) : string :=
  replace_class "!'()*" escape_callback (encodeURIComponent str).

(** The five characters OAuth 1.0a escapes beyond [encodeURIComponent]. *)
Definition oauth_extra (c : ascii) : bool := Str.mem c "!'()*".

Fixpoint has_char (p : ascii -> bool) (s : string) : bool :=
  match s with
  | EmptyString => false
  | String c rest => p c || has_char p rest
  end.

(** ** The platform's cryptography: SHA-1, HMAC and base64

    [crypto.subtle] and [btoa] are built-ins of the runtime; they are
    written out here (FIPS 180-4, RFC 2104, RFC 4648) on bytes held as
    [Z] in [0, 256) and 32-bit words held as [Z] with the wrap-around
    explicit, so that a signature can be evaluated. *)

Module Crypto.

Definition w32 (x : Z) : Z := x mod 2 ^ 32.

Definition add32 (a b : Z) : Z := w32 (a + b).

Definition rotl (n x : Z) : Z :=
  w32 (Z.lor (Z.shiftl x n) (Z.shiftr x (32 - n))).

Definition not32 (x : Z) : Z := Z.lxor x 4294967295.

(** Big-endian bytes of a 32-bit word and of a 64-bit length. *)
Definition be32 (x : Z) : list Z :=
  [Z.shiftr x 24 mod 256; Z.shiftr x 16 mod 256;
   Z.shiftr x 8 mod 256; x mod 256].

Definition be64 (x : Z) : list Z := be32 (Z.shiftr x 32) ++ be32 (w32 x).

Definition pad (msg : list Z) : list Z :=
  let len := Z.of_nat (length msg) in
  msg ++ [128] ++ repeat 0 (Z.to_nat ((55 - len) mod 64)) ++ be64 (8 * len).

Fixpoint blocks (fuel : nat) (l : list Z) : list (list Z) :=
  match fuel, l with
  | O, _ | _, [] => []
  | S fuel', _ => firstn 64 l :: blocks fuel' (skipn 64 l)
  end.

Fixpoint be_words (l : list Z) : list Z :=
  match l with
  | a :: b :: c :: d :: rest =>
      (a * 16777216 + b * 65536 + c * 256 + d) :: be_words rest
  | _ => []
  end.

(** The message schedule, most recent word first. *)
Fixpoint schedule (n : nat) (ws : list Z) : list Z :=
  match n with
  | O => ws
  | S n' =>
      let w := rotl 1 (Z.lxor (Z.lxor (nth 2 ws 0) (nth 7 ws 0))
                              (Z.lxor (nth 13 ws 0) (nth 15 ws 0))) in
      schedule n' (w :: ws)
  end.

Definition round_f (t : nat) (b c d : Z) : Z :=
  if (t <? 20)%nat then Z.lor (Z.land b c) (Z.land (not32 b) d)
  else if (t <? 40)%nat then Z.lxor (Z.lxor b c) d
  else if (t <? 60)%nat
       then Z.lor (Z.lor (Z.land b c) (Z.land b d)) (Z.land c d)
  else Z.lxor (Z.lxor b c) d.

Definition round_k (t : nat) : Z :=
  if (t <? 20)%nat then 1518500249
  else if (t <? 40)%nat then 1859775393
  else if (t <? 60)%nat then 2400959708
  else 3395469782.

Definition regs : Type := Z * Z * Z * Z * Z.

Fixpoint rounds (t : nat) (ws : list Z) (r : regs) : regs :=
  match ws with
  | [] => r
  | w :: ws' =>
      let '(a, b, c, d, e) := r in
      let temp :=
        add32 (add32 (add32 (add32 (rotl 5 a) (round_f t b c d)) e)
                     (round_k t)) w in
      rounds (S t) ws' (temp, a, rotl 30 b, c, d)
  end.

Definition compress (h : regs) (block : list Z) : regs :=
  let ws := rev (schedule 64 (rev (be_words block))) in
  let '(a, b, c, d, e) := rounds 0 ws h in
  let '(h0, h1, h2, h3, h4) := h in
  (add32 h0 a, add32 h1 b, add32 h2 c, add32 h3 d, add32 h4 e).

Definition sha1_init : regs :=
  (1732584193, 4023233417, 2562383102, 271733878, 3285377520).

Definition sha1 (msg : list Z) : list Z :=
  let p := pad msg in
  let '(h0, h1, h2, h3, h4) :=
    fold_left compress (blocks (length p) p) sha1_init in
  be32 h0 ++ be32 h1 ++ be32 h2 ++ be32 h3 ++ be32 h4.

Definition xor_pad (p : Z) (key : list Z) : list Z :=
  map (fun b => Z.lxor b p) key.

Definition hmac_sha1 (key msg : list Z) : list Z :=
  let k := if (64 <? length key)%nat then sha1 key else key in
  let k := k ++ repeat 0 (64 - length k) in
  sha1 (xor_pad 92 k ++ sha1 (xor_pad 54 k ++ msg)).

(** [btoa]: base64 with the standard alphabet and [=] padding. *)
Definition b64_char (n : Z) : ascii :=
  match
    String.get (Z.to_nat n)
      "ABCDEFGHIJKLMNOPQRSTUVWXYZabcdefghijklmnopqrstuvwxyz0123456789+/"
  with
  | Some c => c
  | None => "="%char
  end.

Fixpoint btoa (bytes : list Z) : string :=
  match bytes with
  | [] => EmptyString
  | [a] =>
      String (b64_char (a / 4))
        (String (b64_char (a mod 4 * 16)) "==")
  | [a; b] =>
      String (b64_char (a / 4))
        (String (b64_char (a mod 4 * 16 + b / 16))
           (String (b64_char (b mod 16 * 4)) "="))
  | a :: b :: c :: rest =>
      String (b64_char (a / 4))
        (String (b64_char (a mod 4 * 16 + b / 16))
           (String (b64_char (b mod 16 * 4 + c / 64))
              (String (b64_char (c mod 64)) (btoa rest))))
  end.

(** [TextEncoder.encode] on a string held as its UTF-8 bytes. *)
Fixpoint encode (s : string) : list Z :=
  match s with
  | EmptyString => []
  | String c rest => Z.of_N (N_of_ascii c) :: encode rest
  end.

Definition hex_of_bytes (bytes : list Z) : string :=
  fold_right
    (fun b acc =>
       Str.padStart2 (Str.toString16 (Z.to_N b)) +:+ acc) EmptyString bytes.

End Crypto.

(** ** Data model ([types.ts]) *)

Record OAuth1Token := {
  oauth_token : string;
  oauth_token_secret : string;
  mfa_token : option string;
  mfa_expiration_timestamp : option string;
  domain : string
}.

(** The four numeric fields are optional: the exchange response may
    leave the absolute ones out, and the code tests for their presence.
    [None] is JavaScript's [undefined]. *)
Record OAuth2Token := {
  scope : string;
  jti : string;
  token_type : string;
  access_token : string;
  refresh_token : string;
  expires_in : option Z;
  expires_at : option Z;
  refresh_token_expires_in : option Z;
  refresh_token_expires_at : option Z
}.

Record OAuthConsumer := {
  consumer_key : string;
  consumer_secret : string
}.

Definition EXCHANGE_URL : string :=
  "https://connectapi.garmin.com/oauth-service/oauth/exchange/user/2.0".
Definition CONSUMER_URL : string :=
  "https://thegarth.s3.amazonaws.com/oauth_consumer.json".
Definition CONSUMER_KV_KEY : string := "oauth_consumer".
Definition CONSUMER_TTL : Z := 86400.

(** ** JavaScript objects with string values, arrays of strings *)

Module Js.

(** A [Record<string, string>]: its own properties in insertion order. *)
Definition obj : Type := list (string * string).

Definition Object_keys (o : obj) : list string := map fst o.

(** [o[k]] for a property that exists; [undefined] prints as such. *)
Fixpoint get (o : obj) (k : string) : string :=
  match o with
  | [] => "undefined"
  | (k', v) :: rest => if String.eqb k k' then v else get rest k
  end.

(** [o[k] = v]: overwrite in place, or add as the last property. *)
Fixpoint set (o : obj) (k v : string) : obj :=
  match o with
  | [] => [(k, v)]
  | (k', v') :: rest =>
      if String.eqb k k' then (k', v) :: rest else (k', v') :: set rest k v
  end.

Fixpoint insert_sorted (x : string) (l : list string) : list string :=
  match l with
  | [] => [x]
  | y :: rest =>
      if String.leb x y then x :: l else y :: insert_sorted x rest
  end.

(** [Array.prototype.sort()] without a comparator: ascending by code
    units, which on UTF-8 bytes of ASCII strings is [String.compare]. *)
Definition sort (l : list string) : list string :=
  fold_right insert_sorted [] l.

(** The double quote of a template literal. *)
Definition dquote : string := Str.char (ascii_of_N 34).

End Js.

(** ** The canonical signer ([buildOAuth1Header]) *)

(** [generateNonce] once [crypto.getRandomValues] has filled the array. *)
Definition generateNonce_of (array : list Z) : string :=
  Str.join EmptyString
    (map (fun b => Str.padStart2 (Str.toString16 (Z.to_N b))) array).

(** [Math.floor(Date.now() / 1000)] for a clock reading in
    milliseconds. *)
Definition epoch_seconds (ms : Z) : Z := ms / 1000.

(** [hmacSha1] for a key that is not empty; the key import of the
    platform rejects an empty one, which no caller passes. *)
Definition hmacSha1 (key data : string) : string :=
  Crypto.btoa (Crypto.hmac_sha1 (Crypto.encode key) (Crypto.encode data)).

Definition oauth_params (consumer : OAuthConsumer) (oauth1 : OAuth1Token)
    (timestamp nonce : string) : Js.obj :=
  [ ("oauth_consumer_key", consumer_key consumer);
    ("oauth_nonce", nonce);
    ("oauth_signature_method", "HMAC-SHA1");
    ("oauth_timestamp", timestamp);
    ("oauth_token", oauth_token oauth1);
    ("oauth_version", "1.0") ].

Definition paramString (params : Js.obj) : string :=
  Str.join "&"
    (map (fun k => percentEncode k +:+ "=" +:+ percentEncode (Js.get params k))
         (Js.sort (Js.Object_keys params))).

Definition baseString (paramString : string) : string :=
  Str.join "&"
    ["POST"; percentEncode EXCHANGE_URL; percentEncode paramString].

Definition signingKey (consumer : OAuthConsumer) (oauth1 : OAuth1Token)
  : string :=
  percentEncode (consumer_secret consumer) +:+ "&"
  +:+ percentEncode (oauth_token_secret oauth1).

Definition headerParts (params : Js.obj) : string :=
  Str.join ", "
    (map (fun k => percentEncode k +:+ "=" +:+ Js.dquote
                   +:+ percentEncode (Js.get params k) +:+ Js.dquote)
         (Js.sort (Js.Object_keys params))).

(** The body of [buildOAuth1Header] after its first two lines, which
    read the clock and the random source into [timestamp] and [nonce]. *)
Definition buildOAuth1Header_at (consumer : OAuthConsumer)
    (oauth1 : OAuth1Token) (timestamp nonce : string) : string :=
  let params := oauth_params consumer oauth1 timestamp nonce in
  let signature :=
    hmacSha1 (signingKey consumer oauth1) (baseString (paramString params)) in
  let params := Js.set params "oauth_signature" signature in
  "OAuth " +:+ headerParts params.

(** The reference algorithm, written from the specification (section
    4.1, steps 3 to 9) and not from the code: it takes the method and
    the target URL as inputs, encodes before it sorts, and sorts
    key/value pairs rather than keys. *)
Module Reference.

Definition pairs : Type := list (string * string).

Fixpoint insert_by_key (p : string * string) (l : pairs) : pairs :=
  match l with
  | [] => [p]
  | q :: rest =>
      if String.leb (fst p) (fst q) then p :: l
      else q :: insert_by_key p rest
  end.

Definition sort_by_key (l : pairs) : pairs := fold_right insert_by_key [] l.

(** Step 3: the protocol parameter set. *)
Definition protocol_parameters (consumer : OAuthConsumer)
    (oauth1 : OAuth1Token) (timestamp nonce : string) : pairs :=
  [ ("oauth_consumer_key", consumer_key consumer);
    ("oauth_nonce", nonce);
    ("oauth_signature_method", "HMAC-SHA1");
    ("oauth_timestamp", timestamp);
    ("oauth_token", oauth_token oauth1);
    ("oauth_version", "1.0") ].

(** Steps 4 and 5: encode names and values, sort by encoded key, join. *)
Definition parameter_string (ps : pairs) : string :=
  Str.join "&"
    (map (fun p => fst p +:+ "=" +:+ snd p)
         (sort_by_key
            (map (fun p => (percentEncode (fst p), percentEncode (snd p)))
                 ps))).

(** Step 6. *)
Definition signature_base_string (method url : string) (ps : pairs)
  : string :=
  method +:+ "&" +:+ percentEncode url +:+ "&"
  +:+ percentEncode (parameter_string ps).

(** Step 7. *)
Definition signing_key (consumer : OAuthConsumer) (oauth1 : OAuth1Token)
  : string :=
  percentEncode (consumer_secret consumer) +:+ "&"
  +:+ percentEncode (oauth_token_secret oauth1).

(** Step 8. *)
Definition oauth_signature (key base : string) : string :=
  Crypto.btoa (Crypto.hmac_sha1 (Crypto.encode key) (Crypto.encode base)).

(** Step 9. *)
Definition render (p : string * string) : string :=
  fst p +:+ "=" +:+ Js.dquote +:+ percentEncode (snd p) +:+ Js.dquote.

Definition header (method url : string) (consumer : OAuthConsumer)
    (oauth1 : OAuth1Token) (timestamp nonce : string) : string :=
  let ps := protocol_parameters consumer oauth1 timestamp nonce in
  let signature :=
    oauth_signature (signing_key consumer oauth1)
                    (signature_base_string method url ps) in
  "OAuth "
  +:+ Str.join ", "
        (map render (sort_by_key (ps ++ [("oauth_signature", signature)]))).

End Reference.

(** ** The runtime: KV namespace, network, clock, random source *)

(** A JSON document. The three interfaces of [types.ts] are kept as
    records; any other payload (a data API response, a request body) is
    kept as its text. A document of another shape than the interface a
    cast names is outside the typed model: the source goes on with
    [undefined] fields, the model stops with [ShapeMismatch]. *)
Inductive Doc :=
| DocOAuth1 (t : OAuth1Token)
| DocOAuth2 (t : OAuth2Token)
| DocConsumer (c : OAuthConsumer)
| DocJson (text : string).

Record KVEntry := {
  kv_value : Doc;
  kv_expirationTtl : option Z
}.

Record Request := {
  req_method : string;
  req_url : string;
  req_headers : list (string * string);
  req_body : option Doc
}.

(** A response: [text] is what [resp.text()] yields, [json] what
    [resp.json()] or [JSON.parse(text)] yields, [None] when the body is
    not JSON. *)
Record Response := {
  status : Z;
  text : string;
  json : option Doc
}.

(** [resp.ok]. *)
Definition ok (r : Response) : bool :=
  (200 <=? status r) && (status r <=? 299).

Inductive FetchResult :=
| Responds (r : Response)
| Rejects.

(** What a call can throw. [Error] is [new Error(message)] of the code
    itself; the others come from the runtime. *)
Inductive Exn :=
| Error (message : string)
| NetworkFailure
| SyntaxError
| ShapeMismatch.

(** The world outside the invocation: the n-th reading of the clock
    (milliseconds), the n-th filling of a random array, the answer to
    the n-th request, and the URL serializer. *)
Record Env := {
  clock : nat -> Z;
  random : nat -> list Z;
  network : nat -> Request -> FetchResult;
  url_toString : string -> list (string * string) -> string
}.

(** Everything the invocation does to the outside, oldest first.
    [EvRefresh] is a ghost event: it marks a call of
    [refreshOAuth2Token]. *)
Inductive Event :=
| EvKvGet (key : string)
| EvKvPut (key : string) (entry : KVEntry)
| EvFetch (req : Request) (res : FetchResult)
| EvNow (ms : Z)
| EvRandom (bytes : list Z)
| EvRefresh (oauth1 : OAuth1Token).

(** The state of one invocation: the KV namespace, the client's
    [oauth2Cache] field, the trace, and how often each source of the
    environment has been consulted. *)
Record State := {
  kv : gmap string KVEntry;
  oauth2Cache : option OAuth2Token;
  trace : list Event;
  n_now : nat;
  n_random : nat;
  n_fetch : nat
}.

Inductive Result (A : Type) :=
| Ok (a : A)
| Throw (e : Exn).
Arguments Ok {A} a.
Arguments Throw {A} e.

Definition M (A : Type) : Type := State -> Result A * State.

Definition ret {A} (a : A) : M A := fun s => (Ok a, s).

Definition throw {A} (e : Exn) : M A := fun s => (Throw e, s).

Definition bind {A B} (m : M A) (k : A -> M B) : M B :=
  fun s =>
    match m s with
    | (Ok a, s') => k a s'
    | (Throw e, s') => (Throw e, s')
    end.

Notation "'let*' x ':=' m 'in' k" := (bind m (fun x => k))
  (at level 10, x name, m at level 100, k at level 200).

Definition log (e : Event) (s : State) : State :=
  {| kv := kv s; oauth2Cache := oauth2Cache s; trace := trace s ++ [e];
     n_now := n_now s; n_random := n_random s; n_fetch := n_fetch s |}.

(** [kv.get(key)] and [kv.get(key, "json")]. *)
Definition kv_get (key : string) : M (option Doc) :=
  fun s => (Ok (kv_value <$> kv s !! key), log (EvKvGet key) s).

(** [kv.put(key, value, { expirationTtl })]. *)
Definition kv_put (key : string) (value : Doc) (ttl : option Z) : M unit :=
  fun s =>
    let entry := {| kv_value := value; kv_expirationTtl := ttl |} in
    let s := log (EvKvPut key entry) s in
    (Ok tt,
     {| kv := <[key := entry]> (kv s); oauth2Cache := oauth2Cache s;
        trace := trace s; n_now := n_now s; n_random := n_random s;
        n_fetch := n_fetch s |}).

(** [fetch(url, init)]: resolves with a response or rejects. *)
Definition fetch (env : Env) (req : Request) : M Response :=
  fun s =>
    let res := network env (n_fetch s) req in
    let s := log (EvFetch req res) s in
    let s :=
      {| kv := kv s; oauth2Cache := oauth2Cache s; trace := trace s;
         n_now := n_now s; n_random := n_random s;
         n_fetch := S (n_fetch s) |} in
    match res with
    | Responds r => (Ok r, s)
    | Rejects => (Throw NetworkFailure, s)
    end.

(** [Date.now()]. *)
Definition Date_now (env : Env) : M Z :=
  fun s =>
    let ms := clock env (n_now s) in
    let s := log (EvNow ms) s in
    (Ok ms,
     {| kv := kv s; oauth2Cache := oauth2Cache s; trace := trace s;
        n_now := S (n_now s); n_random := n_random s;
        n_fetch := n_fetch s |}).

(** A [Uint8Array(16)] out of whatever the source delivers. *)
Definition uint8_16 (l : list Z) : list Z :=
  map (fun b => b mod 256) (firstn 16 (l ++ repeat 0 16%nat)).

(** [crypto.getRandomValues(new Uint8Array(16))]. *)
Definition getRandomValues16 (env : Env) : M (list Z) :=
  fun s =>
    let bytes := uint8_16 (random env (n_random s)) in
    let s := log (EvRandom bytes) s in
    (Ok bytes,
     {| kv := kv s; oauth2Cache := oauth2Cache s; trace := trace s;
        n_now := n_now s; n_random := S (n_random s);
        n_fetch := n_fetch s |}).

Definition get_oauth2Cache : M (option OAuth2Token) :=
  fun s => (Ok (oauth2Cache s), s).

Definition set_oauth2Cache (c : option OAuth2Token) : M unit :=
  fun s =>
    (Ok tt,
     {| kv := kv s; oauth2Cache := c; trace := trace s; n_now := n_now s;
        n_random := n_random s; n_fetch := n_fetch s |}).

Definition mark (e : Event) : M unit := fun s => (Ok tt, log e s).

(** The unchecked casts [... as OAuth2Token] and the like. *)
Definition as_OAuth1Token (d : Doc) : M OAuth1Token :=
  match d with DocOAuth1 t => ret t | _ => throw ShapeMismatch end.

Definition as_OAuth2Token (d : Doc) : M OAuth2Token :=
  match d with DocOAuth2 t => ret t | _ => throw ShapeMismatch end.

Definition as_OAuthConsumer (d : Doc) : M OAuthConsumer :=
  match d with DocConsumer c => ret c | _ => throw ShapeMismatch end.

(** [resp.json()]. *)
Definition resp_json (r : Response) : M Doc :=
  match json r with Some d => ret d | None => throw SyntaxError end.

(** JavaScript truthiness and comparisons of a possibly missing number:
    [undefined] and [0] are falsy; a comparison with [undefined] is
    false. *)
Definition truthy (n : option Z) : bool :=
  match n with Some v => negb (v =? 0) | None => false end.

Definition js_gt (a : option Z) (b : Z) : bool :=
  match a with Some v => b <? v | None => false end.

Definition js_le (a : option Z) (b : Z) : bool :=
  match a with Some v => v <=? b | None => false end.

(** ** Token refresh ([token-refresh.ts]) *)

Definition generateNonce (env : Env) : M string :=
  let* array := getRandomValues16 env in
  ret (generateNonce_of array).

Definition buildOAuth1Header (env : Env) (consumer : OAuthConsumer)
    (oauth1 : OAuth1Token) : M string :=
  let* ms := Date_now env in
  let timestamp := pretty (epoch_seconds ms) in
  let* nonce := generateNonce env in
  ret (buildOAuth1Header_at consumer oauth1 timestamp nonce).

Definition consumer_request : Request :=
  {| req_method := "GET"; req_url := CONSUMER_URL; req_headers := [];
     req_body := None |}.

Definition getConsumer (env : Env) : M OAuthConsumer :=
  let* cached := kv_get CONSUMER_KV_KEY in
  match cached with
  | Some d => as_OAuthConsumer d
  | None =>
      let* resp := fetch env consumer_request in
      if negb (ok resp) then
        throw (Error ("Failed to fetch OAuth consumer keys: "
                      +:+ pretty (status resp)))
      else
        let* d := resp_json resp in
        let* consumer := as_OAuthConsumer d in
        let* _ := kv_put CONSUMER_KV_KEY (DocConsumer consumer)
                         (Some CONSUMER_TTL) in
        ret consumer
  end.

Definition exchange_request (authHeader : string) : Request :=
  {| req_method := "POST"; req_url := EXCHANGE_URL;
     req_headers :=
       [ ("Authorization", authHeader);
         ("Content-Type", "application/x-www-form-urlencoded");
         ("User-Agent", "com.garmin.android.apps.connectmobile") ];
     req_body := None |}.

Definition set_expires_at (data : OAuth2Token) (v : Z) : OAuth2Token :=
  {| scope := scope data; jti := jti data; token_type := token_type data;
     access_token := access_token data; refresh_token := refresh_token data;
     expires_in := expires_in data; expires_at := Some v;
     refresh_token_expires_in := refresh_token_expires_in data;
     refresh_token_expires_at := refresh_token_expires_at data |}.

Definition set_refresh_token_expires_at (data : OAuth2Token) (v : Z)
  : OAuth2Token :=
  {| scope := scope data; jti := jti data; token_type := token_type data;
     access_token := access_token data; refresh_token := refresh_token data;
     expires_in := expires_in data; expires_at := expires_at data;
     refresh_token_expires_in := refresh_token_expires_in data;
     refresh_token_expires_at := Some v |}.

(** The value of a number that is there; only read under [truthy]. *)
Definition num (n : option Z) : Z := default 0 n.

(** The numbers of the program are IEEE 754 doubles; the model holds
    the integer-valued ones as [Z]. [round_double z] is the double
    nearest to the integer [z]: [z] itself below [2^53], and beyond
    that [z] rounded to 53 significant bits, a tie going to the even
    significand. *)
Definition round_double (z : Z) : Z :=
  let a := Z.abs z in
  if a <? 2 ^ 53 then z
  else
    let e := Z.log2 a - 52 in
    let q := a / 2 ^ e in
    let r := a mod 2 ^ e in
    let up := (2 ^ e <? 2 * r) || ((2 * r =? 2 ^ e) && Z.odd q) in
    Z.sgn z * ((if up then q + 1 else q) * 2 ^ e).

(** [a + b] on two such numbers: the exact sum, rounded. (The sums of
    the program have a clock reading, below [2^53], as one operand:
    they stay below the overflow threshold of the doubles.) *)
Definition js_add (a b : Z) : Z := round_double (a + b).

(** "Calculate absolute expiry timestamps if not provided": the two
    conditional assignments on [data], in order. *)
Definition absolute_expiry (now : Z) (data : OAuth2Token) : OAuth2Token :=
  let data :=
    if negb (truthy (expires_at data)) && truthy (expires_in data)
    then set_expires_at data (js_add now (num (expires_in data)))
    else data in
  if negb (truthy (refresh_token_expires_at data))
     && truthy (refresh_token_expires_in data)
  then set_refresh_token_expires_at data
         (js_add now (num (refresh_token_expires_in data)))
  else data.

Definition refreshOAuth2Token (env : Env) (oauth1 : OAuth1Token)
  : M OAuth2Token :=
  let* _ := mark (EvRefresh oauth1) in
  let* consumer := getConsumer env in
  let* authHeader := buildOAuth1Header env consumer oauth1 in
  let* resp := fetch env (exchange_request authHeader) in
  if negb (ok resp) then
    throw (Error ("OAuth2 token exchange failed (" +:+ pretty (status resp)
                  +:+ "): " +:+ text resp))
  else
    let* d := resp_json resp in
    let* data := as_OAuth2Token d in
    let* ms := Date_now env in
    let data := absolute_expiry (epoch_seconds ms) data in
    let* _ := kv_put "oauth2_token" (DocOAuth2 data) None in
    ret data.

(** ** The client ([garmin-client.ts]) *)

Definition GARMIN_BASE : string := "https://connectapi.garmin.com".
Definition USER_AGENT : string := "com.garmin.android.apps.connectmobile".

Definition NO_OAUTH2 : string := "No OAuth2 token in KV. Upload tokens first.".
Definition NO_OAUTH1 : string :=
  "No OAuth1 token in KV. Re-run auth.py and re-upload tokens.".

(** The first block of [getAccessToken]: the cached token if it is
    still valid, else nothing (the function goes on to KV). *)
Definition cached_access_token (env : Env) : M (option string) :=
  let* cache := get_oauth2Cache in
  match cache with
  | Some c =>
      let* ms := Date_now env in
      let now := epoch_seconds ms in
      if js_gt (expires_at c) (now + 60) then ret (Some (access_token c))
      else ret None
  | None => ret None
  end.

Definition getAccessToken (env : Env) : M string :=
  let* hit := cached_access_token env in
  match hit with
  | Some token => ret token
  | None =>
      let* tokenJson := kv_get "oauth2_token" in
      match tokenJson with
      | None => throw (Error NO_OAUTH2)
      | Some d =>
          let* oauth2 := as_OAuth2Token d in
          let* ms := Date_now env in
          let now := epoch_seconds ms in
          let* oauth2 :=
            (if js_le (expires_at oauth2) (now + 60) then
               let* oauth1Json := kv_get "oauth1_token" in
               match oauth1Json with
               | None => throw (Error NO_OAUTH1)
               | Some d1 =>
                   let* oauth1 := as_OAuth1Token d1 in
                   refreshOAuth2Token env oauth1
               end
             else ret oauth2) in
          let* _ := set_oauth2Cache (Some oauth2) in
          ret (access_token oauth2)
      end
  end.

Definition api_error (r : Response) : Exn :=
  Error ("Garmin API error (" +:+ pretty (status r) +:+ "): " +:+ text r).

Definition get_request (url token : string) : Request :=
  {| req_method := "GET"; req_url := url;
     req_headers :=
       [ ("Authorization", "Bearer " +:+ token); ("User-Agent", USER_AGENT) ];
     req_body := None |}.

(** [get(path, params)]; [None] is the [null] of a 204. *)
Definition get (env : Env) (path : string) (params : list (string * string))
  : M (option Doc) :=
  let* token := getAccessToken env in
  let url := url_toString env (GARMIN_BASE +:+ path) params in
  let* resp := fetch env (get_request url token) in
  if status resp =? 204 then ret None
  else if (status resp =? 401) || (status resp =? 403) then
    let* _ := set_oauth2Cache None in
    let* freshToken := getAccessToken env in
    let* retry := fetch env (get_request url freshToken) in
    if negb (ok retry) then throw (api_error retry)
    else if status retry =? 204 then ret None
    else
      let* d := resp_json retry in
      ret (Some d)
  else if negb (ok resp) then throw (api_error resp)
  else
    let* d := resp_json resp in
    ret (Some d).

Definition body_request (method url token : string) (body : Doc) : Request :=
  {| req_method := method; req_url := url;
     req_headers :=
       [ ("Authorization", "Bearer " +:+ token);
         ("Content-Type", "application/json");
         ("User-Agent", USER_AGENT) ];
     req_body := Some body |}.

(** The common tail of [post] and [put]:
    [text ? JSON.parse(text) : null]. *)
Definition parse_text (r : Response) : M (option Doc) :=
  match text r with
  | EmptyString => ret None
  | _ =>
      let* d := resp_json r in
      ret (Some d)
  end.

Definition post (env : Env) (path : string) (body : Doc) : M (option Doc) :=
  let* token := getAccessToken env in
  let url := GARMIN_BASE +:+ path in
  let* resp := fetch env (body_request "POST" url token body) in
  if status resp =? 204 then ret None
  else if negb (ok resp) then throw (api_error resp)
  else parse_text resp.

Definition put (env : Env) (path : string) (body : Doc) : M (option Doc) :=
  let* token := getAccessToken env in
  let url := GARMIN_BASE +:+ path in
  let* resp := fetch env (body_request "PUT" url token body) in
  if status resp =? 204 then ret None
  else if negb (ok resp) then throw (api_error resp)
  else parse_text resp.

(** * Part II: the vocabulary of the statements *)

(** ** The specification's error taxonomy, read on the code's errors *)

Definition CredentialsMissing (e : Exn) : Prop :=
  e = Error NO_OAUTH2 \/ e = Error NO_OAUTH1.

Definition UpstreamUnavailable (e : Exn) : Prop :=
  e = NetworkFailure
  \/ exists st : Z,
      e = Error ("Failed to fetch OAuth consumer keys: " +:+ pretty st).

Definition ExchangeRejected (st : Z) (body : string) (e : Exn) : Prop :=
  e = Error ("OAuth2 token exchange failed (" +:+ pretty st +:+ "): "
             +:+ body).

Definition ApiError (st : Z) (body : string) (e : Exn) : Prop :=
  e = Error ("Garmin API error (" +:+ pretty st +:+ "): " +:+ body).

(** A fetch that did not deliver a 2xx response. *)
Definition fetch_failed (res : FetchResult) : Prop :=
  match res with
  | Rejects => True
  | Responds r => ok r = false
  end.

(** ** Observations on states and traces *)

Definition oauth2_entry (data : OAuth2Token) : KVEntry :=
  {| kv_value := DocOAuth2 data; kv_expirationTtl := None |}.

(** What [refreshOAuth2Token] makes of the answer [r] to its exchange
    request, [now] being the clock reading taken after the answer. *)
Definition exchange_outcome (now : Z) (r : Response) : Result OAuth2Token :=
  if negb (ok r) then
    Throw (Error ("OAuth2 token exchange failed (" +:+ pretty (status r)
                  +:+ "): " +:+ text r))
  else
    match json r with
    | None => Throw SyntaxError
    | Some (DocOAuth2 d) => Ok (absolute_expiry now d)
    | Some _ => Throw ShapeMismatch
    end.

(** The calls of [refreshOAuth2Token] among some events. *)
Definition refresh_calls (evs : list Event) : list OAuth1Token :=
  flat_map (fun e => match e with EvRefresh o => [o] | _ => [] end) evs.

(** The first test of [getAccessToken]: there is a cached credential
    and it satisfies [expires_at > now + 60] at the first reading of
    the clock. *)
Definition cache_valid (env : Env) (s : State) : bool :=
  match oauth2Cache s with
  | Some c => js_gt (expires_at c) (epoch_seconds (clock env (n_now s)) + 60)
  | None => false
  end.

(** The [now] of the second test, on the stored credential: the next
    reading of the clock. *)
Definition store_check_now (env : Env) (s : State) : Z :=
  epoch_seconds
    (clock env (match oauth2Cache s with
                | Some _ => S (n_now s)
                | None => n_now s
                end)).

Definition stored_oauth1 (s : State) (o1 : OAuth1Token) : Prop :=
  exists ttl,
    kv s !! "oauth1_token"
    = Some {| kv_value := DocOAuth1 o1; kv_expirationTtl := ttl |}.

(** The way [getAccessToken] takes through its tests. *)
Inductive Path :=
| CacheHit (c : OAuth2Token)
| NoOAuth2
| BadOAuth2
| StoreHit (t2 : OAuth2Token)
| NoOAuth1
| BadOAuth1
| Refresh (o1 : OAuth1Token).

Definition supplier_path (env : Env) (s : State) : Path :=
  match oauth2Cache s with
  | Some c =>
      if cache_valid env s then CacheHit c
      else
        match kv_value <$> kv s !! "oauth2_token" with
        | None => NoOAuth2
        | Some (DocOAuth2 t2) =>
            if js_le (expires_at t2) (store_check_now env s + 60) then
              match kv_value <$> kv s !! "oauth1_token" with
              | None => NoOAuth1
              | Some (DocOAuth1 o1) => Refresh o1
              | Some _ => BadOAuth1
              end
            else StoreHit t2
        | Some _ => BadOAuth2
        end
  | None =>
      match kv_value <$> kv s !! "oauth2_token" with
      | None => NoOAuth2
      | Some (DocOAuth2 t2) =>
          if js_le (expires_at t2) (store_check_now env s + 60) then
            match kv_value <$> kv s !! "oauth1_token" with
            | None => NoOAuth1
            | Some (DocOAuth1 o1) => Refresh o1
            | Some _ => BadOAuth1
            end
          else StoreHit t2
      | Some _ => BadOAuth2
      end
  end.

(** The events of the first test. *)
Definition cache_check_events (env : Env) (s : State) : list Event :=
  match oauth2Cache s with
  | Some _ => [EvNow (clock env (n_now s))]
  | None => []
  end.

(** What each path does. *)
Definition path_outcome (env : Env) (s : State) (res : Result string)
    (s' : State) (evs : list Event) : Prop :=
  match supplier_path env s with
  | CacheHit c =>
      res = Ok (access_token c) /\ evs = cache_check_events env s
  | StoreHit t2 =>
      res = Ok (access_token t2)
      /\ evs = cache_check_events env s
               ++ [ EvKvGet "oauth2_token";
                    EvNow (clock env (length (cache_check_events env s)
                                      + n_now s)) ]
      /\ oauth2Cache s' = Some t2
  | NoOAuth2 =>
      res = Throw (Error NO_OAUTH2)
      /\ evs = cache_check_events env s ++ [EvKvGet "oauth2_token"]
  | NoOAuth1 =>
      res = Throw (Error NO_OAUTH1)
      /\ evs = cache_check_events env s
               ++ [ EvKvGet "oauth2_token";
                    EvNow (clock env (length (cache_check_events env s)
                                      + n_now s));
                    EvKvGet "oauth1_token" ]
  | BadOAuth2 | BadOAuth1 =>
      res = Throw ShapeMismatch /\ refresh_calls evs = []
  | Refresh o1 =>
      exists post,
        evs = (cache_check_events env s
               ++ [ EvKvGet "oauth2_token";
                    EvNow (clock env (length (cache_check_events env s)
                                      + n_now s)) ])
              ++ [EvKvGet "oauth1_token"; EvRefresh o1] ++ post
        /\ refresh_calls post = []
        /\ forall token,
            res = Ok token ->
            exists data,
              token = access_token data
              /\ oauth2Cache s' = Some data
              /\ kv s' !! "oauth2_token" = Some (oauth2_entry data)
  end.

(** The state once request [req] has been answered by [res]. *)
Definition answered (req : Request) (res : FetchResult) (s : State) : State :=
  {| kv := kv s; oauth2Cache := oauth2Cache s;
     trace := trace s ++ [EvFetch req res];
     n_now := n_now s; n_random := n_random s; n_fetch := S (n_fetch s) |}.

Definition invalidated (s : State) : State :=
  {| kv := kv s; oauth2Cache := None; trace := trace s; n_now := n_now s;
     n_random := n_random s; n_fetch := n_fetch s |}.

Definition unauthorized (r : Response) : Prop :=
  status r = 401 \/ status r = 403.

(** What [get] makes of the answer to its retry. *)
Definition retry_outcome (retry : Response) : Result (option Doc) :=
  if negb (ok retry) then Throw (api_error retry)
  else if status retry =? 204 then Ok None
  else match json retry with
       | Some d => Ok (Some d)
       | None => Throw SyntaxError
       end.

(** ** Frames *)

(** The keys the core may write. *)
Definition core_keys : list string := ["oauth2_token"; CONSUMER_KV_KEY].

Definition writes_only (keys : list string) (e : Event) : Prop :=
  match e with
  | EvKvPut k _ => In k keys
  | _ => True
  end.

(** From [s] to [s'] the trace only grew, every write it gained went
    to one of [core_keys], and every other key of the store holds what
    it held. *)
Definition frame (s s' : State) : Prop :=
  exists evs,
    trace s' = trace s ++ evs
    /\ Forall (writes_only core_keys) evs
    /\ forall k, ~ In k core_keys -> kv s' !! k = kv s !! k.

Definition frame_ok {A} (m : M A) : Prop := forall s, frame s (snd (m s)).

(** The frame of one operation: the OAuth1 key holds what it held, and
    the events of the call write only to the OAuth2 key and to the
    consumer key. *)
Definition oauth1_read_only {A} (m : M A) : Prop :=
  forall s,
    kv (snd (m s)) !! "oauth1_token" = kv s !! "oauth1_token"
    /\ exists evs,
        trace (snd (m s)) = trace s ++ evs
        /\ Forall (writes_only ["oauth2_token"; "oauth_consumer"]) evs
        /\ forall k, k <> "oauth2_token" /\ k <> "oauth_consumer" ->
                     kv (snd (m s)) !! k = kv s !! k.

(** ** Concrete worlds used to exercise the statements *)

Module Example.

Definition entry (d : Doc) : KVEntry :=
  {| kv_value := d; kv_expirationTtl := None |}.

Definition oauth1 : OAuth1Token :=
  {| oauth_token := "token-1"; oauth_token_secret := "secret-1";
     mfa_token := None; mfa_expiration_timestamp := None;
     domain := "garmin.com" |}.

Definition consumer : OAuthConsumer :=
  {| consumer_key := "consumer-key"; consumer_secret := "consumer-secret" |}.

(** A credential as the exchange endpoint sends it. *)
Definition token (name : string) (ei ea ri ra : option Z) : OAuth2Token :=
  {| scope := "CONNECT_READ"; jti := "jti"; token_type := "Bearer";
     access_token := name; refresh_token := "B";
     expires_in := ei; expires_at := ea;
     refresh_token_expires_in := ri; refresh_token_expires_at := ra |}.

Definition relative_only : OAuth2Token :=
  token "A" (Some 72000) None (Some 2592000) None.

Definition respond (st : Z) (body : string) (d : option Doc) : FetchResult :=
  Responds {| status := st; text := body; json := d |}.

(** A network that serves the consumer keys, answers the exchange with
    [exchange], and answers the data API with [api n] on request [n]. *)
Definition net (exchange : FetchResult) (api : nat -> FetchResult)
    (n : nat) (req : Request) : FetchResult :=
  if String.eqb (req_url req) CONSUMER_URL
  then respond 200 "{}" (Some (DocConsumer consumer))
  else if String.eqb (req_url req) EXCHANGE_URL then exchange
  else api n.

Definition env (exchange : FetchResult) (api : nat -> FetchResult) : Env :=
  {| clock := fun _ => 1000500;
     random := fun _ => [];
     network := net exchange api;
     url_toString := fun base _ => base |}.

Definition exchange_ok : FetchResult :=
  respond 200 "{}" (Some (DocOAuth2 relative_only)).

Definition denied : FetchResult := respond 401 "denied" None.

Definition state (store : gmap string KVEntry)
    (cache : option OAuth2Token) : State :=
  {| kv := store; oauth2Cache := cache; trace := []; n_now := 0%nat;
     n_random := 0%nat; n_fetch := 0%nat |}.

(** A store with the OAuth1 credential and an OAuth2 credential that
    expires at [ea]; the same with the consumer keys cached. *)
Definition store (ea : Z) : gmap string KVEntry :=
  <["oauth2_token" := entry (DocOAuth2 (token "OLD" (Some 72000) (Some ea)
                                          (Some 2592000) (Some 2593000)))]>
    (<["oauth1_token" := entry (DocOAuth1 oauth1)]> ∅).

Definition store_with_consumer (ea : Z) : gmap string KVEntry :=
  <[CONSUMER_KV_KEY := {| kv_value := DocConsumer consumer;
                          kv_expirationTtl := Some CONSUMER_TTL |}]>
    (store ea).

End Example.

(** * Part I, continued: the Worker's entry point ([index.ts])

    The handler answers by itself until it hands the message to the MCP
    transport of the SDK, which is outside this development: the
    embedding stops at the hand-over. *)

From Stdlib Require SpecFloat.

Module Worker.

Definition CORS_HEADERS : list (string * string) :=
  [ ("Access-Control-Allow-Origin", "*");
    ("Access-Control-Allow-Methods", "GET, POST, OPTIONS, DELETE");
    ("Access-Control-Allow-Headers",
     "Content-Type, Authorization, Mcp-Session-Id, Mcp-Protocol-Version");
    ("Access-Control-Expose-Headers", "Mcp-Session-Id") ].

(** A [Response] the Worker builds: status, body ([None] is [null]),
    headers. *)
Record Reply := {
  reply_status : Z;
  reply_body : option string;
  reply_headers : list (string * string)
}.

Definition corsResponse (status : Z) (body : option string) : Reply :=
  {| reply_status := status; reply_body := body;
     reply_headers := CORS_HEADERS |}.

(** A property value of a parsed message, as far as the handler can
    tell values apart: [JsUndefined] is a property that is not there, a
    number is the double [JSON.parse] produced, [JsObject] stands for an
    object or an array. *)
Inductive JsValue :=
| JsUndefined
| JsNull
| JsBoolean (b : bool)
| JsNumber (n : SpecFloat.spec_float)
| JsString (s : string)
| JsObject.

(** What the handler reads of a message: its [id] and its [method]. A
    JSON value that is not an object reads as a message with neither. *)
Record RpcMessage := {
  rpc_id : JsValue;
  rpc_method : JsValue
}.

(** The parsed body: one message or an array of messages. *)
Inductive RpcBody :=
| One (m : RpcMessage)
| Batch (l : list RpcMessage).

(** The incoming [Request]: method, [new URL(request.url).pathname],
    the Authorization header ([None] when [headers.get] gives [null])
    and what [request.json()] yields ([None] when it rejects). *)
Record Incoming := {
  in_method : string;
  in_pathname : string;
  in_authorization : option string;
  in_json : option RpcBody
}.

(** How the handler ends: with a reply of its own, with the rejection
    of [request.json()], with the [TypeError] of calling a [startsWith]
    that is not a function, or by handing the body to the MCP transport
    (whose response then goes through [addCorsHeaders]). *)
Inductive Handled :=
| Replied (r : Reply)
| JsonRejected
| NotAFunction
| Dispatched (body : RpcBody).

(** [Array.isArray(body) ? body[0] : body]; [None] is [undefined]. *)
Definition first_message (body : RpcBody) : option RpcMessage :=
  match body with
  | One m => Some m
  | Batch l => head l
  end.

(** JavaScript truthiness. *)
Definition value_truthy (v : JsValue) : bool :=
  match v with
  | JsUndefined | JsNull => false
  | JsBoolean b => b
  | JsNumber (SpecFloat.S754_zero _) | JsNumber SpecFloat.S754_nan => false
  | JsNumber _ => true
  | JsString s => negb (String.eqb s EmptyString)
  | JsObject => true
  end.

(** Truthiness of [first?.id]. *)
Definition id_truthy (first : option RpcMessage) : bool :=
  match first with
  | Some m => value_truthy (rpc_id m)
  | None => false
  end.

(** Truthiness of [method?.startsWith("notifications/")]: the chain
    stops at [undefined] and [null]; a string answers; any other value
    has no [startsWith] to call, and the call throws ([None]). *)
Definition method_is_notification (first : option RpcMessage)
  : option bool :=
  match first with
  | Some m =>
      match rpc_method m with
      | JsUndefined | JsNull => Some false
      | JsString method => Some (String.prefix "notifications/" method)
      | JsBoolean _ | JsNumber _ | JsObject => None
      end
  | None => Some false
  end.

(** [!authHeader || authHeader !== `Bearer ${env.API_KEY}`]. *)
Definition rejected_key (API_KEY : string) (authHeader : option string)
  : bool :=
  match authHeader with
  | None => true
  | Some h =>
      String.eqb h EmptyString || negb (String.eqb h ("Bearer " +:+ API_KEY))
  end.

(** The [fetch] handler of the Worker, up to the hand-over. *)
Definition fetch (API_KEY : string) (request : Incoming) : Handled :=
  if String.eqb (in_method request) "OPTIONS" then
    Replied (corsResponse 204 None)
  else if String.eqb (in_pathname request) "/"
          || String.eqb (in_pathname request) "/health" then
    Replied (corsResponse 200 (Some "Garmin MCP Cloud — OK"))
  else if negb (String.eqb (in_pathname request) "/mcp") then
    Replied (corsResponse 404 (Some "Not Found"))
  else if rejected_key API_KEY (in_authorization request) then
    Replied (corsResponse 401 (Some "Unauthorized"))
  else if String.eqb (in_method request) "DELETE" then
    Replied (corsResponse 200 (Some "Session closed"))
  else if negb (String.eqb (in_method request) "POST") then
    Replied (corsResponse 405 (Some "Method Not Allowed"))
  else
    match in_json request with
    | None => JsonRejected
    | Some body =>
        let first := first_message body in
        if id_truthy first then Dispatched body
        else
          match method_is_notification first with
          | None => NotAFunction
          | Some true => Replied (corsResponse 202 None)
          | Some false => Dispatched body
          end
    end.

End Worker.

(** * Part II, continued: vocabulary of the further properties *)

(** ** Strings *)

Fixpoint string_forallb (p : ascii -> bool) (s : string) : bool :=
  match s with
  | EmptyString => true
  | String c rest => p c && string_forallb p rest
  end.

(** The value of a hexadecimal digit. *)
Definition hex_value (c : ascii) : N :=
  let n := N_of_ascii c in
  if Str.is_digit c then (n - 48)%N
  else if Str.between "A" "F" c then (n - 55)%N
  else if Str.between "a" "f" c then (n - 87)%N
  else 0%N.

(** The inverse of percent-encoding: a triplet [%XY] is the byte [XY],
    any other character is itself. The code has no decoder; this one
    states that [percentEncode] loses nothing. *)
Fixpoint percentDecode (s : string) : string :=
  match s with
  | EmptyString => EmptyString
  | String c rest =>
      if Ascii.eqb c "%" then
        match rest with
        | String a (String b rest') =>
            String (ascii_of_N (hex_value a * 16 + hex_value b))
                   (percentDecode rest')
        | _ => String c (percentDecode rest)
        end
      else String c (percentDecode rest)
  end.

Definition is_lower_hex (c : ascii) : bool := Str.mem c "0123456789abcdef".

(** The two digits [generateNonce] prints for the byte [n]. *)
Definition hex_pair_ok (n : nat) : bool :=
  let s := Str.padStart2 (Str.toString16 (N.of_nat n)) in
  Nat.eqb (String.length s) 2 && string_forallb is_lower_hex s.

Definition is_base64 (c : ascii) : bool :=
  Str.is_alpha c || Str.is_digit c || Str.mem c "+/=".

(** A character [percentEncode] can emit: unreserved, or the percent
    sign of a triplet. *)
Definition encoded_char (c : ascii) : bool :=
  rfc3986_unreserved c || Ascii.eqb c "%".

(** The separators of the parameter string, the base string and the
    header: ampersand, equals sign, comma, space and double quote. *)
Definition is_separator (c : ascii) : bool :=
  Str.mem c "&=, " || Ascii.eqb c (ascii_of_N 34).

(** ** Traces *)

(** The requests sent among some events, in order. *)
Definition requests (evs : list Event) : list Request :=
  flat_map (fun e => match e with EvFetch req _ => [req] | _ => [] end) evs.

(** The header [refreshOAuth2Token] signs with when started in [s]: the
    timestamp is the first clock reading, the nonce the first draw. *)
Definition signed_header (env : Env) (s : State) (consumer : OAuthConsumer)
    (oauth1 : OAuth1Token) : string :=
  buildOAuth1Header_at consumer oauth1
    (pretty (epoch_seconds (clock env (n_now s))))
    (generateNonce_of (uint8_16 (random env (n_random s)))).

(** The state after one more reading of the clock. *)
Definition clock_read (env : Env) (s : State) : State :=
  {| kv := kv s; oauth2Cache := oauth2Cache s;
     trace := trace s ++ [EvNow (clock env (n_now s))];
     n_now := S (n_now s); n_random := n_random s; n_fetch := n_fetch s |}.

(** The state after [getAccessToken] took the credential [t2] from the
    store of [s], the cache being empty. *)
Definition loaded (env : Env) (s : State) (t2 : OAuth2Token) : State :=
  {| kv := kv s; oauth2Cache := Some t2;
     trace := trace s ++ [EvKvGet "oauth2_token";
                          EvNow (clock env (n_now s))];
     n_now := S (n_now s); n_random := n_random s; n_fetch := n_fetch s |}.

(** * Part III: the properties *)

(** ** Strings and percent-encoding *)

#[local] Arguments String.append !s1 s2 : simpl nomatch.

Lemma Str_app_assoc (a b c : string) : (a +:+ b) +:+ c = a +:+ b +:+ c.
Proof. induction a; simpl; congruence. Qed.

Lemma Str_concat_map_app f s1 s2 :
  Str.concat_map f (s1 +:+ s2) = Str.concat_map f s1 +:+ Str.concat_map f s2.
Proof.
  induction s1 as [|c s1 IH]; simpl; [reflexivity|].
  now rewrite IH, Str_app_assoc.
Qed.

Lemma replace_class_app cls f s1 s2 :
  replace_class cls f (s1 +:+ s2)
  = replace_class cls f s1 +:+ replace_class cls f s2.
Proof. apply Str_concat_map_app. Qed.

Lemma percentEncode_app s1 s2 :
  percentEncode (s1 +:+ s2) = percentEncode s1 +:+ percentEncode s2.
Proof.
  unfold percentEncode, encodeURIComponent.
  now rewrite Str_concat_map_app, replace_class_app.
Qed.

Lemma percentEncode_cons c s :
  percentEncode (String c s) = percentEncode (Str.char c) +:+ percentEncode s.
Proof. exact (percentEncode_app (Str.char c) s). Qed.

Lemma encodeURIComponent_cons c s :
  encodeURIComponent (String c s)
  = encodeURIComponent (Str.char c) +:+ encodeURIComponent s.
Proof. exact (Str_concat_map_app _ (Str.char c) s). Qed.

Ltac all_ascii c :=
  destruct c as [[] [] [] [] [] [] [] []]; vm_compute; try reflexivity;
  try discriminate; try tauto.

Lemma percentEncode_char_unreserved c :
  rfc3986_unreserved c = true -> percentEncode (Str.char c) = Str.char c.
Proof. all_ascii c. Qed.

Lemma percentEncode_char_other c :
  oauth_extra c = false ->
  percentEncode (Str.char c) = encodeURIComponent (Str.char c).
Proof. all_ascii c. Qed.

Lemma encodeURIComponent_char_extra c :
  oauth_extra c = true -> encodeURIComponent (Str.char c) = Str.char c.
Proof. all_ascii c. Qed.

Lemma percentEncode_char_extra c :
  oauth_extra c = true ->
  percentEncode (Str.char c)
  = String "%" (String (Str.upper_char (Str.hex_digit (N_of_ascii c / 16)))
       (Str.char (Str.upper_char (Str.hex_digit (N_of_ascii c mod 16))))).
Proof. all_ascii c. Qed.

Lemma string_app_inv_same_length (a a' b b' : string) :
  String.length a = String.length a' ->
  a +:+ b = a' +:+ b' -> a = a' /\ b = b'.
Proof.
  revert a'. induction a as [|c a IH]; intros [|c' a']; simpl; try discriminate.
  - auto.
  - intros Hl Heq. injection Hl as Hl. injection Heq as -> Heq.
    destruct (IH _ Hl Heq) as [-> ->]. auto.
Qed.

Lemma percentEncode_eq_encodeURIComponent_iff s :
  percentEncode s = encodeURIComponent s <-> has_char oauth_extra s = false.
Proof.
  induction s as [|c s IH]; [simpl; tauto|].
  rewrite percentEncode_cons.
  rewrite encodeURIComponent_cons.
  simpl has_char. destruct (oauth_extra c) eqn:Hc; simpl.
  - split; [|discriminate]. intros Heq. exfalso.
    rewrite (encodeURIComponent_char_extra c Hc) in Heq.
    rewrite (percentEncode_char_extra c Hc) in Heq.
    simpl in Heq. injection Heq as Heq _.
    revert Hc Heq. clear. all_ascii c.
  - rewrite (percentEncode_char_other c Hc). split.
    + intros Heq. apply string_app_inv_same_length in Heq; [|reflexivity].
      apply IH, Heq.
    + intros Hs. apply IH in Hs. now rewrite Hs.
Qed.

(** C5. [percentEncode] acts character by character; it leaves every
    RFC 3986 unreserved character (letters, digits, [-], [.], [_], [~])
    unchanged; it turns [!], ['], [(], [)], [*] into the uppercase
    triplets [%21], [%27], [%28], [%29], [%2A]; and on every input it
    differs from the default [encodeURIComponent] exactly when one of
    those five characters occurs (which the default leaves unescaped). *)
Theorem percentEncode_rfc3986_oauth :
  (forall s1 s2,
      percentEncode (s1 +:+ s2) = percentEncode s1 +:+ percentEncode s2)
  /\ (forall c, rfc3986_unreserved c = true ->
                percentEncode (Str.char c) = Str.char c)
  /\ (percentEncode "!" = "%21" /\ percentEncode "'" = "%27"
      /\ percentEncode "(" = "%28" /\ percentEncode ")" = "%29"
      /\ percentEncode "*" = "%2A")
  /\ (forall c, oauth_extra c = true ->
                encodeURIComponent (Str.char c) = Str.char c)
  /\ (forall s, percentEncode s = encodeURIComponent s
                <-> has_char oauth_extra s = false).
Proof.
  split; [exact percentEncode_app|].
  split; [exact percentEncode_char_unreserved|].
  split; [repeat split; reflexivity|].
  split; [exact encodeURIComponent_char_extra|].
  exact percentEncode_eq_encodeURIComponent_iff.
Qed.

Example percentEncode_sample :
  percentEncode "a b/~!'()*" = "a%20b%2F~%21%27%28%29%2A".
Proof. vm_compute. reflexivity. Qed.

Example generateNonce_sample :
  generateNonce_of [0; 1; 15; 16; 255; 171] = "00010f10ffab".
Proof. vm_compute. reflexivity. Qed.

(** ** The cryptographic built-ins on known answers

    FIPS 180 ("abc" and the two-block message), RFC 2202 (test cases 2
    and 6), RFC 4648. *)

Example sha1_abc :
  Crypto.hex_of_bytes (Crypto.sha1 (Crypto.encode "abc"))
  = "a9993e364706816aba3e25717850c26c9cd0d89d".
Proof. vm_compute. reflexivity. Qed.

Example sha1_two_blocks :
  Crypto.hex_of_bytes
    (Crypto.sha1
       (Crypto.encode
          "abcdbcdecdefdefgefghfghighijhijkijkljklmklmnlmnomnopnopq"))
  = "84983e441c3bd26ebaae4aa1f95129e5e54670f1".
Proof. vm_compute. reflexivity. Qed.

Example hmac_rfc2202_2 :
  Crypto.hex_of_bytes
    (Crypto.hmac_sha1 (Crypto.encode "Jefe")
       (Crypto.encode "what do ya want for nothing?"))
  = "effcdf6ae5eb2fa2d27416d5f184df9c259a7c79".
Proof. vm_compute. reflexivity. Qed.

Example hmac_rfc2202_6 :
  Crypto.hex_of_bytes
    (Crypto.hmac_sha1 (repeat 170 80)
       (Crypto.encode
          "Test Using Larger Than Block-Size Key - Hash Key First"))
  = "aa4ae5e15272d00e95705637ce8a3b55ed402112".
Proof. vm_compute. reflexivity. Qed.

Example btoa_rfc4648 :
  Crypto.btoa (Crypto.encode EmptyString) = EmptyString
  /\ Crypto.btoa (Crypto.encode "f") = "Zg=="
  /\ Crypto.btoa (Crypto.encode "fo") = "Zm8="
  /\ Crypto.btoa (Crypto.encode "foo") = "Zm9v"
  /\ Crypto.btoa (Crypto.encode "foobar") = "Zm9vYmFy".
Proof. vm_compute. repeat split. Qed.

(** ** The canonical signer against the reference algorithm *)

(** Evaluate the sorting of literal keys and the property reads. *)
Ltac eval_params :=
  cbn [map fst snd Js.Object_keys Js.set app];
  repeat match goal with
    | |- context [Js.set ?o ?k ?v] =>
        let r := eval lazy in (Js.set o k v) in change (Js.set o k v) with r
    end;
  cbn [map fst snd Js.Object_keys];
  repeat match goal with
    | |- context [Js.sort ?l] =>
        let r := eval lazy in (Js.sort l) in change (Js.sort l) with r
    end;
  cbn [map];
  repeat match goal with
    | |- context [Js.get ?o ?k] =>
        let r := eval lazy in (Js.get o k) in change (Js.get o k) with r
    end.

Lemma paramString_reference consumer oauth1 timestamp nonce :
  paramString (oauth_params consumer oauth1 timestamp nonce)
  = Reference.parameter_string
      (Reference.protocol_parameters consumer oauth1 timestamp nonce).
Proof.
  unfold paramString, Reference.parameter_string, oauth_params,
    Reference.protocol_parameters.
  generalize (consumer_key consumer) (oauth_token oauth1).
  intros ck tok. eval_params.
  generalize (percentEncode ck) (percentEncode tok) (percentEncode nonce)
    (percentEncode timestamp).
  intros. reflexivity.
Qed.

Lemma baseString_reference consumer oauth1 timestamp nonce :
  baseString (paramString (oauth_params consumer oauth1 timestamp nonce))
  = Reference.signature_base_string "POST" EXCHANGE_URL
      (Reference.protocol_parameters consumer oauth1 timestamp nonce).
Proof.
  rewrite paramString_reference.
  unfold baseString, Reference.signature_base_string.
  generalize (percentEncode
    (Reference.parameter_string
       (Reference.protocol_parameters consumer oauth1 timestamp nonce))).
  intros. reflexivity.
Qed.

(** The header built for a given timestamp and nonce is the reference
    header for a POST to the exchange URL. *)
Lemma buildOAuth1Header_at_reference consumer oauth1 timestamp nonce :
  buildOAuth1Header_at consumer oauth1 timestamp nonce
  = Reference.header "POST" EXCHANGE_URL consumer oauth1 timestamp nonce.
Proof.
  unfold buildOAuth1Header_at, Reference.header.
  rewrite baseString_reference.
  change (signingKey consumer oauth1)
    with (Reference.signing_key consumer oauth1).
  change hmacSha1 with Reference.oauth_signature.
  generalize (Reference.oauth_signature (Reference.signing_key consumer oauth1)
    (Reference.signature_base_string "POST" EXCHANGE_URL
       (Reference.protocol_parameters consumer oauth1 timestamp nonce))).
  intros signature.
  unfold headerParts, oauth_params, Reference.protocol_parameters,
    Reference.render.
  generalize (consumer_key consumer) (oauth_token oauth1).
  intros ck tok. eval_params.
  match goal with
  | |- context [Reference.sort_by_key ?l] =>
      let r := eval lazy in (Reference.sort_by_key l) in
      change (Reference.sort_by_key l) with r
  end.
  cbn [map fst snd].
  generalize (percentEncode ck) (percentEncode tok) (percentEncode nonce)
    (percentEncode timestamp) (percentEncode signature).
  intros. reflexivity.
Qed.

(** ** Running the code symbolically *)

#[local] Arguments String.append : simpl never.
#[local] Arguments pretty : simpl never.
#[local] Arguments buildOAuth1Header_at : simpl never.
#[local] Arguments generateNonce_of : simpl never.
#[local] Arguments uint8_16 : simpl never.
#[local] Arguments epoch_seconds : simpl never.
#[local] Arguments absolute_expiry : simpl never.
#[local] Arguments js_add : simpl never.
#[local] Arguments ok : simpl never.
#[local] Arguments exchange_request : simpl never.
#[local] Arguments consumer_request : simpl never.
#[local] Arguments get_request : simpl never.
#[local] Arguments body_request : simpl never.
#[local] Arguments api_error : simpl never.
#[local] Arguments js_gt : simpl never.
#[local] Arguments js_le : simpl never.
#[local] Arguments Z.add : simpl never.
#[local] Arguments Z.eqb : simpl never.
#[local] Arguments lookup : simpl never.
#[local] Arguments insert : simpl never.

Ltac munfold :=
  unfold put, post, get, parse_text, getAccessToken, cached_access_token,
    refreshOAuth2Token, getConsumer, buildOAuth1Header, generateNonce,
    bind, ret, throw, kv_get, kv_put, fetch, Date_now, getRandomValues16,
    get_oauth2Cache, set_oauth2Cache, mark, resp_json,
    as_OAuth1Token, as_OAuth2Token, as_OAuthConsumer in *.

(** Split on the innermost scrutinee of a [match] of the goal or of a
    hypothesis. *)
Ltac case_scrutinee :=
  match goal with
  | H : context [match ?x with _ => _ end] |- _ =>
      lazymatch x with
      | context [match _ with _ => _ end] => fail
      | _ => destruct x eqn:?
      end
  | |- context [match ?x with _ => _ end] =>
      lazymatch x with
      | context [match _ with _ => _ end] => fail
      | _ => destruct x eqn:?
      end
  end.

Ltac run := munfold; cbn in *; repeat (case_scrutinee; cbn in *; try discriminate).

(** ** The canonical signer, as called *)

(** C2. For every consumer key pair, OAuth1 credential, timestamp and
    nonce, the header built by [buildOAuth1Header] is the header of the
    reference algorithm for a POST to the exchange URL: the six protocol
    parameters percent-encoded and sorted by encoded key into the
    parameter string, the three-part base string, the signing key of the
    two encoded secrets, the base64 HMAC-SHA1 signature, and the seven
    parameters sorted by key and rendered as key="value", comma-space
    separated after [OAuth ]. The call itself always returns, with that
    header for the timestamp it read from the clock and the nonce it
    drew from the random source. *)
Theorem buildOAuth1Header_reference consumer oauth1 :
  (forall timestamp nonce,
      buildOAuth1Header_at consumer oauth1 timestamp nonce
      = Reference.header "POST" EXCHANGE_URL consumer oauth1 timestamp nonce)
  /\ (forall env s,
        fst (buildOAuth1Header env consumer oauth1 s)
        = Ok (Reference.header "POST" EXCHANGE_URL consumer oauth1
                (pretty (epoch_seconds (clock env (n_now s))))
                (generateNonce_of (uint8_16 (random env (n_random s)))))).
Proof.
  split.
  - apply buildOAuth1Header_at_reference.
  - intros env s. rewrite <- buildOAuth1Header_at_reference. reflexivity.
Qed.

(** ** The consumer key cache *)

Lemma getConsumer_hit env s c ttl :
  kv s !! CONSUMER_KV_KEY
  = Some {| kv_value := DocConsumer c; kv_expirationTtl := ttl |} ->
  getConsumer env s = (Ok c, log (EvKvGet CONSUMER_KV_KEY) s).
Proof.
  intros Hkv. unfold getConsumer, bind, kv_get. rewrite Hkv. reflexivity.
Qed.

Lemma getConsumer_miss_ok env s r c :
  kv s !! CONSUMER_KV_KEY = None ->
  network env (n_fetch s) consumer_request = Responds r ->
  ok r = true -> json r = Some (DocConsumer c) ->
  exists s',
    getConsumer env s = (Ok c, s')
    /\ trace s'
       = trace s ++ [ EvKvGet CONSUMER_KV_KEY;
                      EvFetch consumer_request (Responds r);
                      EvKvPut CONSUMER_KV_KEY
                        {| kv_value := DocConsumer c;
                           kv_expirationTtl := Some 86400 |} ]
    /\ kv s' = <[CONSUMER_KV_KEY := {| kv_value := DocConsumer c;
                                       kv_expirationTtl := Some 86400 |}]>
                 (kv s)
    /\ oauth2Cache s' = oauth2Cache s
    /\ n_fetch s' = S (n_fetch s) /\ n_now s' = n_now s
    /\ n_random s' = n_random s.
Proof.
  intros Hkv Hnet Hok Hjson.
  unfold getConsumer, bind, kv_get, fetch. rewrite Hkv. cbn.
  rewrite Hnet, Hok. cbn. unfold resp_json. rewrite Hjson. cbn.
  eexists. split; [reflexivity|]. cbn.
  rewrite <- !app_assoc. repeat split; reflexivity.
Qed.

Lemma getConsumer_miss_fail env s res :
  kv s !! CONSUMER_KV_KEY = None ->
  network env (n_fetch s) consumer_request = res ->
  fetch_failed res ->
  exists e s',
    getConsumer env s = (Throw e, s')
    /\ UpstreamUnavailable e
    /\ trace s'
       = trace s ++ [EvKvGet CONSUMER_KV_KEY; EvFetch consumer_request res]
    /\ kv s' = kv s /\ n_fetch s' = S (n_fetch s).
Proof.
  intros Hkv Hnet Hfail.
  unfold getConsumer, bind, kv_get, fetch. rewrite Hkv. cbn. rewrite Hnet.
  destruct res as [r|]; cbn in *.
  - rewrite Hfail. cbn. do 2 eexists. split; [reflexivity|]. cbn.
    rewrite <- !app_assoc. repeat split; try reflexivity.
    right. eexists. reflexivity.
  - do 2 eexists. split; [reflexivity|]. cbn.
    rewrite <- !app_assoc. repeat split; try reflexivity. now left.
Qed.

(** C7. [getConsumer] returns a cached consumer key pair with no fetch
    and no store write (the state only gains the read of the cache
    key); on a miss it sends exactly one request, to the fixed consumer
    URL, and on a 2xx answer stores the pair with a TTL of 86400 seconds
    before returning it; if that request fails (rejected, or answered
    with a non-2xx status) the call fails with UpstreamUnavailable after
    that single request and without any store write. *)
Theorem getConsumer_cache_policy env s :
  (forall c ttl,
      kv s !! CONSUMER_KV_KEY
      = Some {| kv_value := DocConsumer c; kv_expirationTtl := ttl |} ->
      getConsumer env s = (Ok c, log (EvKvGet CONSUMER_KV_KEY) s))
  /\ (forall r c,
        kv s !! CONSUMER_KV_KEY = None ->
        network env (n_fetch s) consumer_request = Responds r ->
        ok r = true -> json r = Some (DocConsumer c) ->
        exists s',
          getConsumer env s = (Ok c, s')
          /\ trace s'
             = trace s ++ [ EvKvGet CONSUMER_KV_KEY;
                            EvFetch consumer_request (Responds r);
                            EvKvPut CONSUMER_KV_KEY
                              {| kv_value := DocConsumer c;
                                 kv_expirationTtl := Some 86400 |} ]
          /\ kv s' = <[CONSUMER_KV_KEY :=
                         {| kv_value := DocConsumer c;
                            kv_expirationTtl := Some 86400 |}]> (kv s)
          /\ n_fetch s' = S (n_fetch s))
  /\ (forall res,
        kv s !! CONSUMER_KV_KEY = None ->
        network env (n_fetch s) consumer_request = res ->
        fetch_failed res ->
        exists e s',
          getConsumer env s = (Throw e, s')
          /\ UpstreamUnavailable e
          /\ trace s'
             = trace s ++ [ EvKvGet CONSUMER_KV_KEY;
                            EvFetch consumer_request res ]
          /\ kv s' = kv s /\ n_fetch s' = S (n_fetch s)).
Proof.
  split; [|split].
  - intros c ttl H. now apply getConsumer_hit with ttl.
  - intros r c Hkv Hnet Hok Hjson.
    destruct (getConsumer_miss_ok env s r c Hkv Hnet Hok Hjson)
      as (s' & H1 & H2 & H3 & _ & H4 & _).
    now exists s'.
  - intros res Hkv Hnet Hfail. now apply getConsumer_miss_fail.
Qed.

Lemma getConsumer_cache_policy_witness :
  let hit := Example.state (Example.store_with_consumer 0) None in
  let miss := Example.state (Example.store 0) None in
  let up := Example.env Example.exchange_ok (fun _ => Example.denied) in
  let down :=
    {| clock := fun _ => 0; random := fun _ => [];
       network := fun _ _ => Example.respond 503 "unavailable" None;
       url_toString := fun base _ => base |} in
  getConsumer up hit
  = (Ok Example.consumer, log (EvKvGet CONSUMER_KV_KEY) hit)
  /\ (exists s', getConsumer up miss = (Ok Example.consumer, s')
                 /\ n_fetch s' = 1%nat)
  /\ (exists e s', getConsumer down miss = (Throw e, s')
                   /\ UpstreamUnavailable e /\ kv s' = kv miss).
Proof.
  intros hit miss up down. split; [|split].
  - apply (proj1 (getConsumer_cache_policy up hit) Example.consumer
             (Some CONSUMER_TTL)).
    vm_compute. reflexivity.
  - destruct (proj1 (proj2 (getConsumer_cache_policy up miss))
                {| status := 200; text := "{}";
                   json := Some (DocConsumer Example.consumer) |}
                Example.consumer)
      as (s' & H1 & _ & _ & H2);
      [vm_compute; reflexivity | reflexivity | reflexivity | reflexivity |].
    exists s'. split; [exact H1 | exact H2].
  - destruct (proj2 (proj2 (getConsumer_cache_policy down miss))
                (Example.respond 503 "unavailable" None))
      as (e & s' & H1 & H2 & _ & H3 & _);
      [vm_compute; reflexivity | reflexivity | reflexivity |].
    exists e, s'. repeat split; assumption.
Defined.

(** ** The refresh orchestrator *)

Lemma trace_split {A} (t pre tail full : list A) :
  full = (t ++ pre) ++ tail -> full = t ++ pre ++ tail.
Proof. intros ->. now rewrite app_assoc. Qed.

Lemma snoc3 {A} (l : list A) (a b c : A) :
  ((l ++ [a]) ++ [b]) ++ [c] = l ++ [a; b; c].
Proof. now rewrite <- !app_assoc. Qed.

(** What a successful refresh did: it ended with the exchange request
    answered by a 2xx response carrying a credential [d], a reading [ms]
    of the clock, and the write of the credential it returns. *)
Lemma refreshOAuth2Token_ok_inv env oauth1 s data s' :
  refreshOAuth2Token env oauth1 s = (Ok data, s') ->
  exists evs authHeader r d ms,
    trace s'
    = trace s ++ evs ++ [ EvFetch (exchange_request authHeader) (Responds r);
                          EvNow ms;
                          EvKvPut "oauth2_token" (oauth2_entry data) ]
    /\ ok r = true /\ json r = Some (DocOAuth2 d)
    /\ data = absolute_expiry (epoch_seconds ms) d
    /\ kv s' !! "oauth2_token" = Some (oauth2_entry data)
    /\ oauth2Cache s' = oauth2Cache s.
Proof.
  intros H. run.
  all: injection H as <- <-; cbn.
  all: match goal with
       | H : network _ _ (exchange_request ?h) = Responds ?r,
         J : json ?r = Some (DocOAuth2 ?d) |- _ =>
           eexists _, h, r, d, _
       end.
  all: split; [apply trace_split; rewrite snoc3; f_equal;
               rewrite <- !app_assoc; reflexivity|].
  all: repeat split; try assumption; try apply lookup_insert_eq.
  all: now apply negb_false_iff.
Qed.

(** C8. When [refreshOAuth2Token] returns a credential, the write of
    that credential under the OAuth2 key is the last thing it did, and
    the value then stored under the key is the credential returned. *)
Theorem refreshOAuth2Token_persists_before_return env oauth1 s data s' :
  refreshOAuth2Token env oauth1 s = (Ok data, s') ->
  kv s' !! "oauth2_token" = Some (oauth2_entry data)
  /\ kv_value <$> kv s' !! "oauth2_token" = Some (DocOAuth2 data)
  /\ exists evs,
      trace s' = trace s ++ evs
                 ++ [EvKvPut "oauth2_token" (oauth2_entry data)].
Proof.
  intros H.
  destruct (refreshOAuth2Token_ok_inv _ _ _ _ _ H)
    as (evs & h & r & d & ms & Htr & _ & _ & _ & Hkv & _).
  split; [exact Hkv|]. split; [now rewrite Hkv|].
  exists (evs ++ [EvFetch (exchange_request h) (Responds r); EvNow ms]).
  rewrite Htr, <- !app_assoc. reflexivity.
Qed.

Lemma refreshOAuth2Token_persists_before_return_witness :
  let env := Example.env Example.exchange_ok (fun _ => Example.denied) in
  let s := Example.state (Example.store 0) None in
  let data := Example.token "A" (Some 72000) (Some 73000) (Some 2592000)
                (Some 2593000) in
  let s' := snd (refreshOAuth2Token env Example.oauth1 s) in
  kv s' !! "oauth2_token" = Some (oauth2_entry data)
  /\ kv_value <$> kv s' !! "oauth2_token" = Some (DocOAuth2 data)
  /\ exists evs,
      trace s' = trace s ++ evs
                 ++ [EvKvPut "oauth2_token" (oauth2_entry data)].
Proof.
  intros env s data s'.
  apply (refreshOAuth2Token_persists_before_return env Example.oauth1 s).
  vm_compute. reflexivity.
Defined.

(** The two conditional assignments, field by field. *)
Lemma absolute_expiry_expires_at now d :
  expires_at (absolute_expiry now d)
  = if negb (truthy (expires_at d)) && truthy (expires_in d)
    then Some (js_add now (num (expires_in d))) else expires_at d.
Proof.
  unfold absolute_expiry.
  destruct (negb (truthy (expires_at d)) && truthy (expires_in d));
    cbn;
    destruct (negb (truthy (refresh_token_expires_at d))
              && truthy (refresh_token_expires_in d)); reflexivity.
Qed.

Lemma absolute_expiry_refresh_token_expires_at now d :
  refresh_token_expires_at (absolute_expiry now d)
  = if negb (truthy (refresh_token_expires_at d))
       && truthy (refresh_token_expires_in d)
    then Some (js_add now (num (refresh_token_expires_in d)))
    else refresh_token_expires_at d.
Proof.
  unfold absolute_expiry.
  destruct (negb (truthy (expires_at d)) && truthy (expires_in d));
    cbn;
    destruct (negb (truthy (refresh_token_expires_at d))
              && truthy (refresh_token_expires_in d)); reflexivity.
Qed.

Lemma truthy_Some v : v <> 0 -> truthy (Some v) = true.
Proof. intros H. unfold truthy. now apply negb_true_iff, Z.eqb_neq. Qed.

Lemma consumer_url_not_exchange : CONSUMER_URL <> EXCHANGE_URL.
Proof. discriminate. Qed.

(** Take apart [In e [e1; ...; en]] and the event equations it gives. *)
Ltac in_trace H :=
  cbn [In app] in H;
  repeat match type of H with
    | _ \/ _ => destruct H as [H|H]
    end;
  try (exfalso; exact H); try discriminate H.

(** If the exchange request of a refresh was answered, the call ends
    as [exchange_outcome] says, and the OAuth2 key holds the returned
    credential on success and what it held before on failure. *)
Lemma refreshOAuth2Token_answered env oauth1 s res s' evs req r :
  refreshOAuth2Token env oauth1 s = (res, s') ->
  trace s' = trace s ++ evs ->
  In (EvFetch req (Responds r)) evs ->
  req_url req = EXCHANGE_URL ->
  res = exchange_outcome (epoch_seconds (clock env (S (n_now s)))) r
  /\ kv s' !! "oauth2_token"
     = match res with
       | Ok data => Some (oauth2_entry data)
       | Throw _ => kv s !! "oauth2_token"
       end.
Proof.
  intros H Htr Hin Hurl. run.
  all: injection H as <- <-; cbn in Htr |- *.
  all: rewrite <- ?app_assoc in Htr; apply app_inv_head in Htr; subst evs.
  all: in_trace Hin.
  all: try (injection Hin as <- ->).
  all: try (exfalso; revert Hurl; exact consumer_url_not_exchange).
  all: unfold exchange_outcome;
    repeat match goal with
      | H : negb (ok _) = _ |- _ => rewrite H
      | H : json _ = _ |- _ => rewrite H
      end.
  all: split; try reflexivity.
  all: first [ apply lookup_insert_eq
             | apply lookup_insert_ne; discriminate ].
Qed.

(** Below [2^53] the sum of two numbers is their exact sum. *)
Lemma js_add_exact a b : Z.abs (a + b) < 2 ^ 53 -> js_add a b = a + b.
Proof.
  intros H. unfold js_add, round_double.
  apply Z.ltb_lt in H. now rewrite H.
Qed.

(** Beyond, it is rounded as the doubles are: to the even significand
    on a tie, to the nearer one otherwise, on both sides of zero. *)
Lemma js_add_samples :
  js_add 1000 72000 = 73000
  /\ js_add 1001 (2 ^ 53) = 9007199254741992
  /\ js_add 1003 (2 ^ 53) = 9007199254741996
  /\ js_add 1 (2 ^ 53) = 2 ^ 53
  /\ js_add 1000 (2 ^ 54) = 2 ^ 54 + 1000
  /\ js_add 1002 (2 ^ 54) = 2 ^ 54 + 1000
  /\ js_add 1003 (2 ^ 54) = 2 ^ 54 + 1004
  /\ js_add (-1001) (- 2 ^ 53) = -9007199254741992
  /\ js_add 1000 ((2 ^ 53 - 1) * 2 ^ 971) = (2 ^ 53 - 1) * 2 ^ 971.
Proof. vm_compute. repeat split. Qed.

(** C4. If the exchange request of a refresh is answered with a 2xx
    response carrying the credential [d], and [now] is the clock
    reading taken after the answer, the call returns a credential
    [data] which it has persisted under the OAuth2 key. The code
    converts as the claim says when the numbers are not zero: a
    non-zero [expires_in] with no [expires_at] in [d] gives
    [expires_at = now + expires_in] (the sum of the two doubles, the
    exact sum below [2^53]), likewise for the refresh token, 72000 and
    2592000 at [now = 1000] give 73000 and 2593000, and a non-zero
    absolute field of [d] is persisted unchanged. It misses the claim
    where a number is zero, which its tests take for a field that is
    not there: a duration of 0 is not converted, so that the credential
    is persisted with no absolute expiry at all, and an absolute field
    of 0 is overwritten with [now] plus the duration. *)
Theorem refreshOAuth2Token_absolute_expiry
    env oauth1 s res s' evs req r d :
  refreshOAuth2Token env oauth1 s = (res, s') ->
  trace s' = trace s ++ evs ->
  In (EvFetch req (Responds r)) evs ->
  req_url req = EXCHANGE_URL ->
  ok r = true ->
  json r = Some (DocOAuth2 d) ->
  let now := epoch_seconds (clock env (S (n_now s))) in
  exists data,
    res = Ok data
    /\ kv s' !! "oauth2_token" = Some (oauth2_entry data)
    /\ (forall ei, expires_in d = Some ei -> ei <> 0 ->
                   expires_at d = None ->
                   expires_at data = Some (js_add now ei)
                   /\ (Z.abs (now + ei) < 2 ^ 53 ->
                       expires_at data = Some (now + ei)))
    /\ (forall ri, refresh_token_expires_in d = Some ri -> ri <> 0 ->
                   refresh_token_expires_at d = None ->
                   refresh_token_expires_at data = Some (js_add now ri)
                   /\ (Z.abs (now + ri) < 2 ^ 53 ->
                       refresh_token_expires_at data = Some (now + ri)))
    /\ (now = 1000 ->
        expires_in d = Some 72000 -> expires_at d = None ->
        refresh_token_expires_in d = Some 2592000 ->
        refresh_token_expires_at d = None ->
        expires_at data = Some 73000
        /\ refresh_token_expires_at data = Some 2593000)
    /\ (forall ea, expires_at d = Some ea -> ea <> 0 ->
                   expires_at data = Some ea)
    /\ (forall ra, refresh_token_expires_at d = Some ra -> ra <> 0 ->
                   refresh_token_expires_at data = Some ra)
    /\ (expires_in d = Some 0 -> expires_at d = None ->
        expires_at data = None)
    /\ (refresh_token_expires_in d = Some 0 ->
        refresh_token_expires_at d = None ->
        refresh_token_expires_at data = None)
    /\ (forall ei, expires_at d = Some 0 -> expires_in d = Some ei ->
                   ei <> 0 -> expires_at data = Some (js_add now ei))
    /\ (forall ri, refresh_token_expires_at d = Some 0 ->
                   refresh_token_expires_in d = Some ri -> ri <> 0 ->
                   refresh_token_expires_at data = Some (js_add now ri)).
Proof.
  intros H Htr Hin Hurl Hok Hjson now.
  destruct (refreshOAuth2Token_answered _ _ _ _ _ _ _ _ H Htr Hin Hurl)
    as [Hres Hkv].
  unfold exchange_outcome in Hres. rewrite Hok, Hjson in Hres. cbn in Hres.
  fold now in Hres. subst res.
  exists (absolute_expiry now d). split; [reflexivity|].
  split; [exact Hkv|].
  rewrite absolute_expiry_expires_at,
    absolute_expiry_refresh_token_expires_at.
  assert (Hrel : forall ei, expires_in d = Some ei -> ei <> 0 ->
                   expires_at d = None ->
                   (if negb (truthy (expires_at d)) && truthy (expires_in d)
                    then Some (js_add now (num (expires_in d)))
                    else expires_at d) = Some (js_add now ei)).
  { intros ei Hei Hnz Hea. rewrite Hea, Hei, (truthy_Some _ Hnz).
    reflexivity. }
  assert (Hrel' : forall ri, refresh_token_expires_in d = Some ri -> ri <> 0 ->
                   refresh_token_expires_at d = None ->
                   (if negb (truthy (refresh_token_expires_at d))
                       && truthy (refresh_token_expires_in d)
                    then Some (js_add now (num (refresh_token_expires_in d)))
                    else refresh_token_expires_at d) = Some (js_add now ri)).
  { intros ri Hri Hnz Hra. rewrite Hra, Hri, (truthy_Some _ Hnz).
    reflexivity. }
  repeat apply conj.
  - intros ei Hei Hnz Hea. rewrite (Hrel ei Hei Hnz Hea).
    split; [reflexivity|]. intros Hsafe. now rewrite js_add_exact.
  - intros ri Hri Hnz Hra. rewrite (Hrel' ri Hri Hnz Hra).
    split; [reflexivity|]. intros Hsafe. now rewrite js_add_exact.
  - intros Hnow Hei Hea Hri Hra.
    rewrite (Hrel 72000 Hei ltac:(lia) Hea),
      (Hrel' 2592000 Hri ltac:(lia) Hra), Hnow.
    split; reflexivity.
  - intros ea Hea Hnz. rewrite Hea, (truthy_Some _ Hnz). reflexivity.
  - intros ra Hra Hnz. rewrite Hra, (truthy_Some _ Hnz). reflexivity.
  - intros Hei Hea. rewrite Hea, Hei. reflexivity.
  - intros Hri Hra. rewrite Hra, Hri. reflexivity.
  - intros ei Hea Hei Hnz. rewrite Hea, Hei, (truthy_Some _ Hnz).
    reflexivity.
  - intros ri Hra Hri Hnz. rewrite Hra, Hri, (truthy_Some _ Hnz).
    reflexivity.
Qed.

Lemma refreshOAuth2Token_absolute_expiry_witness :
  let zero_duration := Example.token "A" (Some 0) None (Some 2592000) None in
  let env :=
    Example.env (Example.respond 200 "{}" (Some (DocOAuth2 zero_duration)))
                (fun _ => Example.denied) in
  let s := Example.state (Example.store 0) None in
  let run := refreshOAuth2Token env Example.oauth1 s in
  epoch_seconds (clock env (S (n_now s))) = 1000
  /\ exists data,
      fst run = Ok data
      /\ kv (snd run) !! "oauth2_token" = Some (oauth2_entry data)
      /\ expires_at data = None
      /\ refresh_token_expires_at data = Some 2593000.
Proof.
  intros zero_duration env s run.
  split; [reflexivity|].
  destruct (refreshOAuth2Token_absolute_expiry env Example.oauth1 s
              (fst run) (snd run) (trace (snd run))
              (exchange_request
                 (buildOAuth1Header_at Example.consumer Example.oauth1
                    "1000" "00000000000000000000000000000000"))
              {| status := 200; text := "{}";
                 json := Some (DocOAuth2 zero_duration) |}
              zero_duration)
    as (data & Hres & Hkv & _ & Hrefresh & _ & _ & _ & Hzero & _).
  - apply surjective_pairing.
  - reflexivity.
  - vm_compute. do 6 right. left. reflexivity.
  - reflexivity.
  - reflexivity.
  - reflexivity.
  - exists data. split; [exact Hres|]. split; [exact Hkv|].
    split; [apply Hzero; reflexivity|].
    destruct (Hrefresh 2592000) as [_ Hexact];
      [reflexivity | discriminate | reflexivity |].
    apply Hexact. vm_compute. reflexivity.
Defined.

(** The same at both kinds of zero, run from end to end: a response
    with [expires_in = 0] and no [expires_at], received at [now = 1000],
    is persisted without any [expires_at] (not with 1000); and a
    response that carries [expires_at = 0] next to [expires_in = 72000]
    is persisted with [expires_at = 73000], not with the field
    unchanged. *)
Lemma refreshOAuth2Token_zero_fields :
  let s := Example.state (Example.store 0) None in
  let zero_duration := Example.token "A" (Some 0) None (Some 2592000) None in
  let zero_absolute :=
    Example.token "A" (Some 72000) (Some 0) (Some 2592000) (Some 2593000) in
  let answering d :=
    Example.env (Example.respond 200 "{}" (Some (DocOAuth2 d)))
                (fun _ => Example.denied) in
  (exists data s',
      refreshOAuth2Token (answering zero_duration) Example.oauth1 s
      = (Ok data, s')
      /\ kv s' !! "oauth2_token" = Some (oauth2_entry data)
      /\ epoch_seconds (clock (answering zero_duration) 1) = 1000
      /\ expires_in zero_duration = Some 0
      /\ expires_at zero_duration = None
      /\ expires_at data <> Some (1000 + 0))
  /\ (exists data s',
         refreshOAuth2Token (answering zero_absolute) Example.oauth1 s
         = (Ok data, s')
         /\ kv s' !! "oauth2_token" = Some (oauth2_entry data)
         /\ expires_at zero_absolute = Some 0
         /\ expires_at data <> Some 0).
Proof.
  intros s zero_duration zero_absolute answering. split.
  - eexists _, _. split; [vm_compute; reflexivity|].
    repeat split; try (vm_compute; reflexivity); vm_compute; discriminate.
  - eexists _, _. split; [vm_compute; reflexivity|].
    repeat split; try (vm_compute; reflexivity); vm_compute; discriminate.
Qed.

(** C10. If the exchange request of a refresh is answered with a
    non-2xx status, [refreshOAuth2Token] fails with the error that
    carries that status and the response body, and the OAuth2 key of
    the store holds what it held before the call; yet such a failed
    call can have fetched the consumer key pair and written it under
    its own key. *)
Theorem refreshOAuth2Token_exchange_rejected :
  (forall env oauth1 s res s' evs req r,
      refreshOAuth2Token env oauth1 s = (res, s') ->
      trace s' = trace s ++ evs ->
      In (EvFetch req (Responds r)) evs ->
      req_url req = EXCHANGE_URL ->
      ok r = false ->
      (exists e, res = Throw e /\ ExchangeRejected (status r) (text r) e)
      /\ kv s' !! "oauth2_token" = kv s !! "oauth2_token")
  /\ (exists env oauth1 s s' e,
         refreshOAuth2Token env oauth1 s = (Throw e, s')
         /\ ExchangeRejected 401 "denied" e
         /\ kv s !! CONSUMER_KV_KEY = None
         /\ kv s' !! CONSUMER_KV_KEY
            = Some {| kv_value := DocConsumer Example.consumer;
                      kv_expirationTtl := Some 86400 |}
         /\ In (EvFetch consumer_request
                  (Example.respond 200 "{}"
                     (Some (DocConsumer Example.consumer))))
               (trace s')).
Proof.
  split.
  - intros env oauth1 s res s' evs req r H Htr Hin Hurl Hok.
    destruct (refreshOAuth2Token_answered _ _ _ _ _ _ _ _ H Htr Hin Hurl)
      as [Hres Hkv].
    unfold exchange_outcome in Hres. rewrite Hok in Hres. cbn in Hres.
    subst res. split; [|exact Hkv].
    eexists. split; reflexivity.
  - exists (Example.env Example.denied (fun _ => Example.denied)),
      Example.oauth1, (Example.state (Example.store 0) None).
    eexists _, _. split; [vm_compute; reflexivity|].
    split; [reflexivity|]. split; [reflexivity|].
    split; [vm_compute; reflexivity|].
    vm_compute. right. right. left. reflexivity.
Qed.

Lemma refreshOAuth2Token_exchange_rejected_witness :
  let env := Example.env Example.denied (fun _ => Example.denied) in
  let s := Example.state (Example.store_with_consumer 0) None in
  let run := refreshOAuth2Token env Example.oauth1 s in
  (exists e, fst run = Throw e /\ ExchangeRejected 401 "denied" e)
  /\ kv (snd run) !! "oauth2_token" = kv s !! "oauth2_token".
Proof.
  intros env s run.
  apply (proj1 refreshOAuth2Token_exchange_rejected env Example.oauth1 s
           (fst run) (snd run) (trace (snd run))
           (exchange_request
              (buildOAuth1Header_at Example.consumer Example.oauth1
                 "1000" "00000000000000000000000000000000"))
           {| status := 401; text := "denied"; json := None |}).
  - apply surjective_pairing.
  - reflexivity.
  - vm_compute. do 4 right. left. reflexivity.
  - reflexivity.
  - reflexivity.
Defined.

(** ** Frame: what the core writes *)

Lemma frame_refl s : frame s s.
Proof.
  exists []. rewrite app_nil_r. repeat split. constructor.
Qed.

Lemma frame_trans s1 s2 s3 : frame s1 s2 -> frame s2 s3 -> frame s1 s3.
Proof.
  intros (e1 & Ht1 & Hw1 & Hk1) (e2 & Ht2 & Hw2 & Hk2).
  exists (e1 ++ e2). split; [|split].
  - now rewrite Ht2, Ht1, app_assoc.
  - apply Forall_app. now split.
  - intros k Hk. now rewrite Hk2, Hk1.
Qed.

Lemma frame_log e s s' :
  writes_only core_keys e ->
  trace s' = trace s ++ [e] ->
  (forall k, ~ In k core_keys -> kv s' !! k = kv s !! k) ->
  frame s s'.
Proof.
  intros He Ht Hk. exists [e]. split; [exact Ht|]. split; [|exact Hk].
  constructor; [exact He | constructor].
Qed.

Create HintDb frame.

Lemma frame_ret {A} (a : A) : frame_ok (ret a).
Proof. intros s. apply frame_refl. Qed.

Lemma frame_throw {A} e : frame_ok (@throw A e).
Proof. intros s. apply frame_refl. Qed.

Lemma frame_bind {A B} (m : M A) (k : A -> M B) :
  frame_ok m -> (forall a, frame_ok (k a)) -> frame_ok (bind m k).
Proof.
  intros Hm Hk s. unfold bind. specialize (Hm s).
  destruct (m s) as [[a|e] s1]; cbn in *; [|exact Hm].
  eapply frame_trans; [exact Hm | apply Hk].
Qed.

Lemma frame_kv_get key : frame_ok (kv_get key).
Proof. intros s. now apply (frame_log (EvKvGet key)). Qed.

Lemma frame_kv_put key value ttl :
  In key core_keys -> frame_ok (kv_put key value ttl).
Proof.
  intros Hkey s.
  apply (frame_log
           (EvKvPut key {| kv_value := value; kv_expirationTtl := ttl |}));
    [exact Hkey | reflexivity |].
  intros k Hk. apply lookup_insert_ne. intros ->. contradiction.
Qed.

Lemma frame_fetch env req : frame_ok (fetch env req).
Proof.
  intros s.
  apply (frame_log (EvFetch req (network env (n_fetch s) req)));
    [exact I | |]; unfold fetch;
    now destruct (network env (n_fetch s) req).
Qed.

Lemma frame_Date_now env : frame_ok (Date_now env).
Proof. intros s. now apply (frame_log (EvNow (clock env (n_now s)))). Qed.

Lemma frame_getRandomValues16 env : frame_ok (getRandomValues16 env).
Proof.
  intros s.
  now apply (frame_log (EvRandom (uint8_16 (random env (n_random s))))).
Qed.

Lemma frame_mark oauth1 : frame_ok (mark (EvRefresh oauth1)).
Proof. intros s. now apply (frame_log (EvRefresh oauth1)). Qed.

Lemma frame_get_oauth2Cache : frame_ok get_oauth2Cache.
Proof. intros s. apply frame_refl. Qed.

Lemma frame_set_oauth2Cache c : frame_ok (set_oauth2Cache c).
Proof.
  intros s. exists []. cbn. rewrite app_nil_r. repeat split. constructor.
Qed.

Lemma frame_resp_json r : frame_ok (resp_json r).
Proof. intros s. unfold resp_json. destruct (json r); apply frame_refl. Qed.

Lemma frame_as_OAuth1Token d : frame_ok (as_OAuth1Token d).
Proof. intros s. destruct d; apply frame_refl. Qed.

Lemma frame_as_OAuth2Token d : frame_ok (as_OAuth2Token d).
Proof. intros s. destruct d; apply frame_refl. Qed.

Lemma frame_as_OAuthConsumer d : frame_ok (as_OAuthConsumer d).
Proof. intros s. destruct d; apply frame_refl. Qed.

#[local] Hint Resolve frame_ret frame_throw frame_kv_get frame_fetch
  frame_Date_now frame_getRandomValues16 frame_mark frame_get_oauth2Cache
  frame_set_oauth2Cache frame_resp_json frame_as_OAuth1Token
  frame_as_OAuth2Token frame_as_OAuthConsumer : frame.

(** Walk through a computation: binds, branches, primitives. *)
Ltac frame_walk :=
  repeat first
    [ solve [auto with frame]
    | apply frame_kv_put; cbn; tauto
    | match goal with
      | |- frame_ok (match ?x with _ => _ end) => destruct x
      end
    | apply frame_bind; [|intros ?] ].

Section Frame.

Variable env : Env.

Lemma frame_getConsumer : frame_ok (getConsumer env).
Proof. unfold getConsumer. frame_walk. Qed.

Lemma frame_buildOAuth1Header consumer oauth1 :
  frame_ok (buildOAuth1Header env consumer oauth1).
Proof. unfold buildOAuth1Header, generateNonce. frame_walk. Qed.

Lemma frame_refreshOAuth2Token oauth1 :
  frame_ok (refreshOAuth2Token env oauth1).
Proof.
  pose proof frame_getConsumer. pose proof frame_buildOAuth1Header.
  unfold refreshOAuth2Token. frame_walk.
Qed.

Lemma frame_getAccessToken : frame_ok (getAccessToken env).
Proof.
  pose proof frame_refreshOAuth2Token.
  unfold getAccessToken, cached_access_token. frame_walk.
Qed.

Lemma frame_get path params : frame_ok (get env path params).
Proof.
  pose proof frame_getAccessToken. unfold get. frame_walk.
Qed.

Lemma frame_post path body : frame_ok (post env path body).
Proof.
  pose proof frame_getAccessToken. unfold post, parse_text. frame_walk.
Qed.

Lemma frame_put path body : frame_ok (put env path body).
Proof.
  pose proof frame_getAccessToken. unfold put, parse_text. frame_walk.
Qed.

End Frame.

Lemma frame_oauth1_unchanged s s' :
  frame s s' -> kv s' !! "oauth1_token" = kv s !! "oauth1_token".
Proof.
  intros (evs & _ & _ & Hk). apply Hk. cbn.
  intros [H|[H|[]]]; discriminate H.
Qed.

Lemma frame_ok_oauth1_read_only {A} (m : M A) :
  frame_ok m -> oauth1_read_only m.
Proof.
  intros H s. split; [apply frame_oauth1_unchanged, H|].
  destruct (H s) as (evs & Ht & Hw & Hk).
  exists evs. split; [exact Ht|]. split; [exact Hw|].
  intros k [H1 H2]. apply Hk. cbn.
  intros [<-|[<-|[]]]; [apply H1 | apply H2]; reflexivity.
Qed.

(** C9. No operation of the core writes to the OAuth1 key: for every
    environment and every starting state, [getAccessToken],
    [refreshOAuth2Token], [getConsumer] and the executor's [get],
    [post] and [put] leave the stored OAuth1 credential (and every key
    other than the OAuth2 key and the consumer key) as it was, and every
    write among their events goes to the OAuth2 key or to the consumer
    key. *)
Theorem core_never_writes_oauth1 env :
  oauth1_read_only (getAccessToken env)
  /\ (forall oauth1, oauth1_read_only (refreshOAuth2Token env oauth1))
  /\ oauth1_read_only (getConsumer env)
  /\ (forall path params, oauth1_read_only (get env path params))
  /\ (forall path body, oauth1_read_only (post env path body))
  /\ (forall path body, oauth1_read_only (put env path body)).
Proof.
  split; [|split; [|split; [|split; [|split]]]]; intros;
    apply frame_ok_oauth1_read_only.
  - apply frame_getAccessToken.
  - apply frame_refreshOAuth2Token.
  - apply frame_getConsumer.
  - apply frame_get.
  - apply frame_post.
  - apply frame_put.
Qed.

(** ** When the access token supplier refreshes *)

Lemma refresh_calls_app l1 l2 :
  refresh_calls (l1 ++ l2) = refresh_calls l1 ++ refresh_calls l2.
Proof. apply flat_map_app. Qed.

(** A refresh logs its own call first and calls no further refresh. *)
Lemma refreshOAuth2Token_trace env oauth1 s :
  exists evs,
    trace (snd (refreshOAuth2Token env oauth1 s))
    = trace s ++ EvRefresh oauth1 :: evs
    /\ refresh_calls evs = [].
Proof.
  run.
  all: eexists; split;
    [rewrite <- ?app_assoc; cbn [app]; reflexivity | reflexivity].
Qed.

#[local] Arguments refreshOAuth2Token : simpl never.
#[local] Arguments Z.ltb : simpl never.
#[local] Arguments Z.leb : simpl never.

Ltac supplier_unfold :=
  unfold getAccessToken, cached_access_token, bind, ret, throw, kv_get,
    Date_now, get_oauth2Cache, set_oauth2Cache, as_OAuth1Token,
    as_OAuth2Token in *.

Lemma js_le_Some e x : js_le (Some e) x = negb (js_gt (Some e) x).
Proof. unfold js_le, js_gt. apply Z.leb_antisym. Qed.

Lemma getAccessToken_path env s :
  exists evs,
    trace (snd (getAccessToken env s)) = trace s ++ evs
    /\ path_outcome env s (fst (getAccessToken env s))
         (snd (getAccessToken env s)) evs.
Proof.
  unfold path_outcome, supplier_path, cache_check_events, cache_valid,
    store_check_now.
  supplier_unfold. cbn.
  repeat (first
            [ match goal with
              | |- context [refreshOAuth2Token ?e ?o ?s1] =>
                  destruct (refreshOAuth2Token_trace e o s1) as (? & ? & ?);
                  destruct (refreshOAuth2Token e o s1) as [[?|?] ?] eqn:?
              end
            | case_scrutinee ];
          cbn in *; try discriminate).
  all: try match goal with
           | H : trace _ = _ ++ EvRefresh _ :: _ |- _ => rewrite H
           end.
  all: eexists; split; [rewrite <- ?app_assoc; cbn [app]; reflexivity|].
  all: try (repeat split; reflexivity).
  all: eexists; split; [reflexivity|]; split; [assumption|].
  all: intros token Htoken; try discriminate Htoken.
  all: injection Htoken as <-.
  all: match goal with
       | H : refreshOAuth2Token _ _ _ = (Ok ?a, _) |- _ =>
           destruct (refreshOAuth2Token_ok_inv _ _ _ _ _ H)
             as (? & ? & ? & ? & ? & _ & _ & _ & _ & Hstored & _);
           exists a; repeat split; exact Hstored
       end.
Qed.

(** C3, for a stored credential that carries its expiry. Let the store
    hold an OAuth2 credential with [expires_at = e2].
    [getAccessToken] calls [refreshOAuth2Token] exactly when neither
    the cached credential (at the first clock reading) nor the stored
    one (at the next reading, [now]) satisfies [expires_at > now + 60]:
    with the OAuth1 credential in the store, the call of the refresh
    occurs once in that case, right after the read of the OAuth1 key,
    and not at all otherwise. With an empty cache, [e2 = now - 1]
    triggers the refresh, and a token returned then is the access token
    of the refreshed credential, which the store and the cache hold by
    then; [e2 = now + 3600] returns the stored access token after one
    read and one clock reading, without a refresh. When a refresh is
    due and the OAuth1 credential is absent, the call fails with
    CredentialsMissing right after looking it up, without a refresh. *)
Theorem getAccessToken_refresh_policy env s t2 ttl2 e2 :
  kv s !! "oauth2_token"
  = Some {| kv_value := DocOAuth2 t2; kv_expirationTtl := ttl2 |} ->
  expires_at t2 = Some e2 ->
  let now := store_check_now env s in
  let fresh := cache_valid env s || (now + 60 <? e2) in
  exists evs,
    trace (snd (getAccessToken env s)) = trace s ++ evs
    /\ (forall o1, stored_oauth1 s o1 ->
          (refresh_calls evs = [o1] <-> fresh = false)
          /\ (refresh_calls evs = [] <-> fresh = true)
          /\ (fresh = false ->
              exists pre post,
                evs = pre ++ [EvKvGet "oauth1_token"; EvRefresh o1] ++ post
                /\ refresh_calls pre = [] /\ refresh_calls post = []))
    /\ (forall o1, stored_oauth1 s o1 -> oauth2Cache s = None ->
          e2 = now - 1 ->
          refresh_calls evs = [o1]
          /\ forall token,
              fst (getAccessToken env s) = Ok token ->
              exists data,
                token = access_token data
                /\ oauth2Cache (snd (getAccessToken env s)) = Some data
                /\ kv (snd (getAccessToken env s)) !! "oauth2_token"
                   = Some (oauth2_entry data))
    /\ (oauth2Cache s = None -> e2 = now + 3600 ->
          fst (getAccessToken env s) = Ok (access_token t2)
          /\ evs = [EvKvGet "oauth2_token"; EvNow (clock env (n_now s))]
          /\ refresh_calls evs = [])
    /\ (kv s !! "oauth1_token" = None -> fresh = false ->
          fst (getAccessToken env s) = Throw (Error NO_OAUTH1)
          /\ CredentialsMissing (Error NO_OAUTH1)
          /\ refresh_calls evs = []
          /\ exists pre, evs = pre ++ [EvKvGet "oauth1_token"]).
Proof.
  intros Hkv He2 now fresh.
  destruct (getAccessToken_path env s) as (evs & Htr & Hout).
  exists evs. split; [exact Htr|].
  unfold path_outcome, supplier_path in Hout.
  rewrite Hkv in Hout. cbn in Hout. rewrite He2, js_le_Some in Hout.
  unfold js_gt in Hout. fold now in Hout.
  subst fresh.
  assert (Hvalid : oauth2Cache s = None -> cache_valid env s = false).
  { unfold cache_valid. now intros ->. }
  split; [|split; [|split]].
  - intros o1 [ttl1 H1]. rewrite H1 in Hout. cbn in Hout.
    destruct (oauth2Cache s) as [c|] eqn:Hc;
      [destruct (cache_valid env s) eqn:Hcv|rewrite (Hvalid eq_refl)];
      cbn [orb];
      try (destruct (now + 60 <? e2) eqn:Hlt; cbn in Hout).
    all: try destruct Hout as (post & -> & Hpost & _).
    all: try destruct Hout as (_ & -> & _).
    all: try destruct Hout as (_ & ->).
    all: unfold cache_check_events; rewrite ?Hc; cbn.
    all: rewrite ?refresh_calls_app; cbn; rewrite ?Hpost.
    all: repeat split; try discriminate; try reflexivity.
    all: intros _.
    all: try (change (flat_map _ post) with (refresh_calls post);
              rewrite Hpost; reflexivity).
    all: match goal with
         | |- exists pre post0, ?a :: ?b :: ?c :: EvKvGet _ :: _ = _ /\ _ =>
             exists [a; b; c], post
         | |- exists pre post0, ?a :: ?b :: EvKvGet _ :: _ = _ /\ _ =>
             exists [a; b], post
         end.
    all: repeat split; assumption.
  - intros o1 [ttl1 H1] Hc ->. rewrite H1, Hc in Hout. cbn in Hout.
    replace (now + 60 <? now - 1) with false in Hout
      by (symmetry; apply Z.ltb_ge; lia).
    cbn in Hout. destruct Hout as (post & -> & Hpost & Htoken).
    split; [|exact Htoken].
    unfold cache_check_events. rewrite Hc. cbn.
    change (flat_map _ post) with (refresh_calls post).
    now rewrite Hpost.
  - intros Hc ->. rewrite Hc in Hout.
    replace (now + 60 <? now + 3600) with true in Hout
      by (symmetry; apply Z.ltb_lt; lia).
    cbn in Hout. destruct Hout as (Hres & -> & _).
    unfold cache_check_events. rewrite Hc. cbn. repeat split. exact Hres.
  - intros H1 Hfresh. rewrite H1 in Hout. cbn in Hout.
    apply orb_false_iff in Hfresh. destruct Hfresh as [Hcv Hlt].
    rewrite Hlt in Hout. cbn in Hout.
    assert (Hout' : fst (getAccessToken env s) = Throw (Error NO_OAUTH1)
                    /\ evs = cache_check_events env s
                             ++ [ EvKvGet "oauth2_token";
                                  EvNow (clock env
                                           (length (cache_check_events env s)
                                            + n_now s));
                                  EvKvGet "oauth1_token" ]).
    { destruct (oauth2Cache s); [rewrite Hcv in Hout|]; exact Hout. }
    destruct Hout' as [Hres ->].
    split; [exact Hres|]. split; [now right|]. split.
    + unfold cache_check_events. now destruct (oauth2Cache s).
    + eexists (_ ++ [_; _]). rewrite <- app_assoc. reflexivity.
Qed.

Lemma getAccessToken_refresh_policy_witness :
  let env := Example.env Example.exchange_ok (fun _ => Example.denied) in
  let stale := Example.state (Example.store 999) None in
  let fresh := Example.state (Example.store 4600) None in
  let no_oauth1 :=
    Example.state (delete "oauth1_token" (Example.store 999)) None in
  (refresh_calls (trace (snd (getAccessToken env stale))) = [Example.oauth1]
   /\ fst (getAccessToken env stale) = Ok "A")
  /\ (fst (getAccessToken env fresh) = Ok "OLD"
      /\ refresh_calls (trace (snd (getAccessToken env fresh))) = [])
  /\ (fst (getAccessToken env no_oauth1) = Throw (Error NO_OAUTH1)
      /\ refresh_calls (trace (snd (getAccessToken env no_oauth1))) = []).
Proof.
  intros env stale fresh no_oauth1.
  pose (tok := fun ea => Example.token "OLD" (Some 72000) (Some ea)
                           (Some 2592000) (Some 2593000)).
  split; [|split].
  - destruct (getAccessToken_refresh_policy env stale (tok 999) None 999)
      as (evs & Htr & _ & Hstale & _ & _);
      [vm_compute; reflexivity | reflexivity |].
    rewrite Htr. split; [|vm_compute; reflexivity].
    apply Hstale; try reflexivity.
    exists None. vm_compute. reflexivity.
  - destruct (getAccessToken_refresh_policy env fresh (tok 4600) None 4600)
      as (evs & Htr & _ & _ & Hfresh & _);
      [vm_compute; reflexivity | reflexivity |].
    rewrite Htr.
    destruct Hfresh as (Hres & _ & Hcalls); try reflexivity.
    split; [exact Hres | exact Hcalls].
  - destruct (getAccessToken_refresh_policy env no_oauth1 (tok 999) None 999)
      as (evs & Htr & _ & _ & _ & Hmissing);
      [vm_compute; reflexivity | reflexivity |].
    rewrite Htr.
    destruct Hmissing as (Hres & _ & Hcalls & _);
      [vm_compute; reflexivity | reflexivity |].
    split; [exact Hres | exact Hcalls].
Defined.

(** The claim of C3 as the specification words it does not hold for a
    stored credential without [expires_at], such as a response with
    relative durations only that was stored as it came: with an empty
    cache and the OAuth1 credential in the store, neither the cached
    nor the stored credential satisfies [expires_at > now + 60], and
    yet [getAccessToken] returns the stored access token without
    calling [refreshOAuth2Token]. *)
Lemma getAccessToken_refresh_policy_counterexample :
  let env := Example.env Example.exchange_ok (fun _ => Example.denied) in
  let t2 := Example.relative_only in
  let s :=
    Example.state
      (<["oauth2_token" := Example.entry (DocOAuth2 t2)]>
         (<["oauth1_token" := Example.entry (DocOAuth1 Example.oauth1)]> ∅))
      None in
  let now := store_check_now env s in
  let neither :=
    negb (cache_valid env s) && negb (js_gt (expires_at t2) (now + 60)) in
  let evs := trace (snd (getAccessToken env s)) in
  stored_oauth1 s Example.oauth1
  /\ neither = true
  /\ fst (getAccessToken env s) = Ok "A"
  /\ refresh_calls evs = []
  /\ ~ (refresh_calls evs = [Example.oauth1] <-> neither = true).
Proof.
  intros env t2 s now neither evs.
  assert (Hcalls : refresh_calls evs = []) by (vm_compute; reflexivity).
  assert (Hneither : neither = true) by (vm_compute; reflexivity).
  split; [exists None; vm_compute; reflexivity|].
  split; [exact Hneither|].
  split; [vm_compute; reflexivity|].
  split; [exact Hcalls|].
  intros [_ Hrefresh]. specialize (Hrefresh Hneither).
  rewrite Hcalls in Hrefresh. discriminate Hrefresh.
Qed.

(** ** The access token supplier *)

(** C6. With an empty in-process cache and a store that holds neither
    an OAuth2 nor an OAuth1 credential, [getAccessToken] fails with
    CredentialsMissing; all it has done is read the OAuth2 key: no
    request was sent (no exchange, no consumer key fetch) and nothing
    was written. *)
Theorem getAccessToken_no_credentials env s :
  oauth2Cache s = None ->
  kv s !! "oauth2_token" = None ->
  kv s !! "oauth1_token" = None ->
  getAccessToken env s
  = (Throw (Error NO_OAUTH2), log (EvKvGet "oauth2_token") s)
  /\ CredentialsMissing (Error NO_OAUTH2)
  /\ n_fetch (log (EvKvGet "oauth2_token") s) = n_fetch s
  /\ kv (log (EvKvGet "oauth2_token") s) = kv s.
Proof.
  intros Hcache Hkv2 _.
  unfold getAccessToken, cached_access_token, bind, get_oauth2Cache, kv_get.
  rewrite Hcache. cbn. rewrite Hkv2. cbn.
  repeat split. now left.
Qed.

Lemma getAccessToken_no_credentials_witness :
  let s := Example.state ∅ None in
  let env := Example.env Example.exchange_ok (fun _ => Example.denied) in
  getAccessToken env s
  = (Throw (Error NO_OAUTH2), log (EvKvGet "oauth2_token") s)
  /\ CredentialsMissing (Error NO_OAUTH2)
  /\ n_fetch (log (EvKvGet "oauth2_token") s) = n_fetch s
  /\ kv (log (EvKvGet "oauth2_token") s) = kv s.
Proof.
  intros s env.
  apply (getAccessToken_no_credentials env s); reflexivity.
Defined.

(** ** The authenticated request executor *)

Lemma unauthorized_tests r :
  unauthorized r ->
  (status r =? 204) = false
  /\ (status r =? 401) || (status r =? 403) = true
  /\ ok r = false.
Proof. unfold ok. intros [-> | ->]; repeat split. Qed.

Lemma fetch_responds env req r s :
  network env (n_fetch s) req = Responds r ->
  fetch env req s = (Ok r, answered req (Responds r) s).
Proof. intros H. unfold fetch. now rewrite H. Qed.

(** [get] on a first answer 401 or 403: the cache is cleared, a token
    is obtained again, the same URL is requested once more with it, and
    the answer to that request decides the call. *)
Lemma get_retries_once env path params s token s1 r freshToken s3 retry :
  let url := url_toString env (GARMIN_BASE +:+ path) params in
  getAccessToken env s = (Ok token, s1) ->
  network env (n_fetch s1) (get_request url token) = Responds r ->
  unauthorized r ->
  getAccessToken env
    (invalidated (answered (get_request url token) (Responds r) s1))
  = (Ok freshToken, s3) ->
  network env (n_fetch s3) (get_request url freshToken) = Responds retry ->
  get env path params s
  = (retry_outcome retry,
     answered (get_request url freshToken) (Responds retry) s3).
Proof.
  intros url Htok Hnet Hr Hfresh Hretry.
  destruct (unauthorized_tests r Hr) as (H204 & H401 & _).
  unfold get, bind. rewrite Htok. fold url.
  rewrite (fetch_responds _ _ _ _ Hnet), H204, H401.
  unfold set_oauth2Cache. fold (invalidated
    (answered (get_request url token) (Responds r) s1)).
  rewrite Hfresh, (fetch_responds _ _ _ _ Hretry).
  unfold retry_outcome, resp_json, throw, ret.
  destruct (negb (ok retry)); [reflexivity|].
  destruct (status retry =? 204); [reflexivity|].
  now destruct (json retry).
Qed.

(** On a second 401 or 403 the retry is terminal: the error carries
    the status and body of the retry. *)
Lemma retry_outcome_unauthorized retry :
  unauthorized retry ->
  exists e, retry_outcome retry = Throw e
            /\ ApiError (status retry) (text retry) e.
Proof.
  intros H. destruct (unauthorized_tests retry H) as (_ & _ & Hok).
  unfold retry_outcome. rewrite Hok. eexists. split; reflexivity.
Qed.

(** C1, on [post] and [put]. When the token supplier has delivered
    [token] and the one request of [post] (or [put]) is answered with
    401 or 403, the call throws the API error of that first answer at
    once: the state is the one right after the answer, so the token
    cache has not been invalidated and no second request has been
    sent. *)
Theorem post_put_unauthorized_no_retry env path body s token s1 :
  getAccessToken env s = (Ok token, s1) ->
  (forall r,
      network env (n_fetch s1)
        (body_request "POST" (GARMIN_BASE +:+ path) token body)
      = Responds r ->
      unauthorized r ->
      post env path body s
      = (Throw (api_error r),
         answered (body_request "POST" (GARMIN_BASE +:+ path) token body)
           (Responds r) s1))
  /\ (forall r,
        network env (n_fetch s1)
          (body_request "PUT" (GARMIN_BASE +:+ path) token body)
        = Responds r ->
        unauthorized r ->
        put env path body s
        = (Throw (api_error r),
           answered (body_request "PUT" (GARMIN_BASE +:+ path) token body)
             (Responds r) s1)).
Proof.
  intros Htok. split; intros r Hnet Hr;
    destruct (unauthorized_tests r Hr) as (H204 & _ & Hok).
  - unfold post, bind. rewrite Htok, (fetch_responds _ _ _ _ Hnet), H204, Hok.
    reflexivity.
  - unfold put, bind. rewrite Htok, (fetch_responds _ _ _ _ Hnet), H204, Hok.
    reflexivity.
Qed.

Lemma post_put_unauthorized_no_retry_witness :
  let env := Example.env Example.exchange_ok (fun _ => Example.denied) in
  let s := Example.state (Example.store 4600) None in
  let body := DocJson "{}" in
  let cached := Example.token "OLD" (Some 72000) (Some 4600) (Some 2592000)
                  (Some 2593000) in
  (fst (post env "/usersummary-service/usersummary/hydration/log" body s)
   = Throw (Error "Garmin API error (401): denied")
   /\ oauth2Cache (snd (post env "/usersummary-service/usersummary/hydration/log" body s)) = Some cached
   /\ n_fetch (snd (post env "/usersummary-service/usersummary/hydration/log" body s)) = 1%nat)
  /\ (fst (put env "/usersummary-service/usersummary/hydration/log" body s)
      = Throw (Error "Garmin API error (401): denied")
      /\ oauth2Cache (snd (put env "/usersummary-service/usersummary/hydration/log" body s)) = Some cached
      /\ n_fetch (snd (put env "/usersummary-service/usersummary/hydration/log" body s)) = 1%nat).
Proof.
  intros env s body cached.
  destruct (post_put_unauthorized_no_retry env "/usersummary-service/usersummary/hydration/log" body s "OLD"
              (snd (getAccessToken env s))) as [Hpost Hput];
    [vm_compute; reflexivity|].
  split.
  - rewrite (Hpost {| status := 401; text := "denied"; json := None |});
      [| reflexivity | now left].
    repeat split.
  - rewrite (Hput {| status := 401; text := "denied"; json := None |});
      [| reflexivity | now left].
    repeat split.
Defined.

(** * Part IV: further properties of the code *)

(** ** [percentEncode] *)

Lemma percentDecode_encoded_char c rest :
  percentDecode (percentEncode (Str.char c) +:+ rest)
  = String c (percentDecode rest).
Proof. destruct c as [[] [] [] [] [] [] [] []]; reflexivity. Qed.

Lemma percentDecode_percentEncode s : percentDecode (percentEncode s) = s.
Proof.
  induction s as [|c s IH]; [reflexivity|].
  rewrite percentEncode_cons, percentDecode_encoded_char. now rewrite IH.
Qed.

(** X1. Percent-encoding loses no information: decoding the triplets
    of [percentEncode s] gives [s] back, so two strings with the same
    encoding are equal. *)
Theorem percentEncode_injective :
  (forall s, percentDecode (percentEncode s) = s)
  /\ (forall s1 s2, percentEncode s1 = percentEncode s2 -> s1 = s2).
Proof.
  split; [exact percentDecode_percentEncode|].
  intros s1 s2 H.
  rewrite <- (percentDecode_percentEncode s1), H.
  apply percentDecode_percentEncode.
Qed.

Lemma percentEncode_injective_witness :
  percentDecode (percentEncode "a b&c=%7E") = "a b&c=%7E"
  /\ "a b" +:+ "&c" = "a b&c".
Proof.
  split.
  - apply (proj1 percentEncode_injective).
  - apply (proj2 percentEncode_injective). vm_compute. reflexivity.
Defined.

Lemma string_forallb_app p s1 s2 :
  string_forallb p (s1 +:+ s2)
  = string_forallb p s1 && string_forallb p s2.
Proof.
  induction s1 as [|c s1 IH]; [reflexivity|].
  change (String c s1 +:+ s2) with (String c (s1 +:+ s2)).
  cbn [string_forallb]. now rewrite IH, andb_assoc.
Qed.

Lemma percentEncode_char_alphabet c :
  string_forallb encoded_char (percentEncode (Str.char c)) = true.
Proof. destruct c as [[] [] [] [] [] [] [] []]; reflexivity. Qed.

Lemma percentEncode_alphabet s :
  string_forallb encoded_char (percentEncode s) = true.
Proof.
  induction s as [|c s IH]; [reflexivity|].
  now rewrite percentEncode_cons, string_forallb_app,
    percentEncode_char_alphabet, IH.
Qed.

Lemma encoded_char_not_separator c :
  encoded_char c = true -> is_separator c = false.
Proof. destruct c as [[] [] [] [] [] [] [] []]; vm_compute; congruence. Qed.

Lemma string_forallb_impl (p q : ascii -> bool) s :
  (forall c, p c = true -> q c = true) ->
  string_forallb p s = true -> string_forallb q s = true.
Proof.
  intros Hpq. induction s as [|c s IH]; [reflexivity|].
  cbn [string_forallb]. rewrite !andb_true_iff. intros [Hc Hs].
  split; [now apply Hpq | now apply IH].
Qed.

(** X2. The output of [percentEncode] is made of RFC 3986 unreserved
    characters and percent signs only; in particular it never contains
    one of the separators [&], [=], [,], space or the double quote, so
    the joined parameter string, base string and header split back
    unambiguously. *)
Theorem percentEncode_output_alphabet s :
  string_forallb encoded_char (percentEncode s) = true
  /\ string_forallb (fun c => negb (is_separator c)) (percentEncode s) = true.
Proof.
  split; [apply percentEncode_alphabet|].
  apply (string_forallb_impl encoded_char); [|apply percentEncode_alphabet].
  intros c Hc. now rewrite (encoded_char_not_separator c Hc).
Qed.

(** ** [generateNonce] *)

Lemma uint8_16_length l : length (uint8_16 l) = 16%nat.
Proof.
  unfold uint8_16. rewrite length_map, length_firstn, length_app, repeat_length.
  lia.
Qed.

Lemma uint8_16_range l : Forall (fun b => 0 <= b < 256) (uint8_16 l).
Proof.
  unfold uint8_16. apply List.Forall_forall. intros b Hb.
  apply in_map_iff in Hb. destruct Hb as (x & <- & _).
  apply Z.mod_pos_bound. lia.
Qed.

Lemma hex_pair_all : forallb hex_pair_ok (seq 0 256) = true.
Proof. vm_compute. reflexivity. Qed.

Lemma hex_pair_byte b :
  0 <= b < 256 ->
  String.length (Str.padStart2 (Str.toString16 (Z.to_N b))) = 2%nat
  /\ string_forallb is_lower_hex (Str.padStart2 (Str.toString16 (Z.to_N b)))
     = true.
Proof.
  intros Hb.
  assert (Hin : In (Z.to_nat b) (seq 0 256)) by (apply in_seq; lia).
  pose proof (proj1 (forallb_forall _ _) hex_pair_all _ Hin) as H.
  unfold hex_pair_ok in H. rewrite Z_nat_N in H.
  apply andb_true_iff in H. destruct H as [H1 H2].
  split; [now apply Nat.eqb_eq | exact H2].
Qed.

Lemma string_length_app (a b : string) :
  String.length (a +:+ b) = (String.length a + String.length b)%nat.
Proof.
  induction a as [|c a IH]; [reflexivity|].
  change (String c a +:+ b) with (String c (a +:+ b)). cbn [String.length].
  now rewrite IH.
Qed.

Lemma join_empty_cons x l :
  Str.join EmptyString (x :: l) = x +:+ Str.join EmptyString l.
Proof.
  destruct l as [|y l]; cbn [Str.join].
  - clear. induction x as [|c x IH]; [reflexivity|].
    change (String c x +:+ EmptyString) with (String c (x +:+ EmptyString)).
    now rewrite <- IH.
  - reflexivity.
Qed.

Lemma generateNonce_of_shape array :
  Forall (fun b => 0 <= b < 256) array ->
  String.length (generateNonce_of array) = (2 * length array)%nat
  /\ string_forallb is_lower_hex (generateNonce_of array) = true.
Proof.
  unfold generateNonce_of. induction 1 as [|b l Hb Hl IH]; [now split|].
  cbn [map length]. rewrite join_empty_cons, string_length_app,
    string_forallb_app.
  destruct (hex_pair_byte b Hb) as [H1 H2]. destruct IH as [IH1 IH2].
  rewrite H1, H2, IH1, IH2. split; [lia | reflexivity].
Qed.

(** X3. Whatever the random source delivers, [generateNonce] returns a
    string of exactly 32 lowercase hexadecimal digits; it consults the
    random source once and does nothing else. *)
Theorem generateNonce_32_hex env s :
  exists nonce,
    generateNonce env s
    = (Ok nonce,
       {| kv := kv s; oauth2Cache := oauth2Cache s;
          trace := trace s ++ [EvRandom (uint8_16 (random env (n_random s)))];
          n_now := n_now s; n_random := S (n_random s);
          n_fetch := n_fetch s |})
    /\ String.length nonce = 32%nat
    /\ string_forallb is_lower_hex nonce = true.
Proof.
  exists (generateNonce_of (uint8_16 (random env (n_random s)))).
  split; [reflexivity|].
  destruct (generateNonce_of_shape _ (uint8_16_range (random env (n_random s))))
    as [H1 H2].
  rewrite uint8_16_length in H1. split; [exact H1 | exact H2].
Qed.

(** ** [hmacSha1] *)

Lemma sha1_length msg : length (Crypto.sha1 msg) = 20%nat.
Proof.
  unfold Crypto.sha1.
  destruct (fold_left Crypto.compress _ Crypto.sha1_init)
    as [[[[h0 h1] h2] h3] h4].
  reflexivity.
Qed.

Lemma b64_char_base64 n : is_base64 (Crypto.b64_char n) = true.
Proof.
  unfold Crypto.b64_char.
  destruct (Z.to_nat n) as [|k] eqn:E; [reflexivity|].
  clear E.
  do 64 (destruct k as [|k]; [reflexivity|]).
  reflexivity.
Qed.

Lemma btoa_20 (l : list Z) :
  length l = 20%nat ->
  String.length (Crypto.btoa l) = 28%nat
  /\ string_forallb is_base64 (Crypto.btoa l) = true
  /\ String.get 27 (Crypto.btoa l) = Some "="%char.
Proof.
  intros H.
  do 20 (destruct l as [|? l]; [discriminate H|]).
  destruct l; [|discriminate H].
  cbn [Crypto.btoa String.length String.get string_forallb].
  rewrite !b64_char_base64. repeat split.
Qed.

(** The key [buildOAuth1Header] signs with is never empty: it holds
    the ampersand between the two encoded secrets. *)
Lemma signingKey_not_empty consumer oauth1 :
  signingKey consumer oauth1 <> EmptyString.
Proof.
  unfold signingKey.
  destruct (percentEncode (consumer_secret consumer)); discriminate.
Qed.

(** X4. For every key that is not empty (the key import accepts no
    other, and the signing key of [buildOAuth1Header] never is) and
    every data, [hmacSha1] returns 28 characters of the base64
    alphabet, the last one being the padding [=]: the 20 bytes of an
    HMAC-SHA1 digest. *)
Theorem hmacSha1_28_base64 key data :
  key <> EmptyString ->
  String.length (hmacSha1 key data) = 28%nat
  /\ string_forallb is_base64 (hmacSha1 key data) = true
  /\ String.get 27 (hmacSha1 key data) = Some "="%char.
Proof.
  intros _.
  unfold hmacSha1. apply btoa_20. unfold Crypto.hmac_sha1. apply sha1_length.
Qed.

Lemma hmacSha1_28_base64_witness :
  let key := signingKey Example.consumer Example.oauth1 in
  key = "consumer-secret&secret-1"
  /\ String.length (hmacSha1 key "POST&url&params") = 28%nat
  /\ string_forallb is_base64 (hmacSha1 key "POST&url&params") = true
  /\ String.get 27 (hmacSha1 key "POST&url&params") = Some "="%char.
Proof.
  intros key. split; [vm_compute; reflexivity|].
  apply (hmacSha1_28_base64 key "POST&url&params").
  apply signingKey_not_empty.
Defined.

(** ** [getConsumer] and [refreshOAuth2Token] *)

(** X5. Once [getConsumer] has returned a key pair, a further call in
    the resulting state returns the same pair from the store, whatever
    the network does by then: it only reads the cache key. *)
Theorem getConsumer_twice env env' s c s1 :
  getConsumer env s = (Ok c, s1) ->
  getConsumer env' s1 = (Ok c, log (EvKvGet CONSUMER_KV_KEY) s1).
Proof.
  intros H.
  assert (Hkv : exists ttl,
             kv s1 !! CONSUMER_KV_KEY
             = Some {| kv_value := DocConsumer c; kv_expirationTtl := ttl |}).
  { run.
    - injection H as <- <-. cbn.
      destruct (kv s !! CONSUMER_KV_KEY) as [[v ttl]|]; [|discriminate].
      cbn in *. exists ttl. congruence.
    - injection H as <- <-. cbn. eexists. apply lookup_insert_eq. }
  destruct Hkv as [ttl Hkv]. now apply getConsumer_hit with ttl.
Qed.

Lemma getConsumer_twice_witness :
  let env := Example.env Example.exchange_ok (fun _ => Example.denied) in
  let down :=
    {| clock := fun _ => 0; random := fun _ => [];
       network := fun _ _ => Rejects; url_toString := fun base _ => base |} in
  let s := Example.state (Example.store 0) None in
  let s1 := snd (getConsumer env s) in
  getConsumer down s1
  = (Ok Example.consumer, log (EvKvGet CONSUMER_KV_KEY) s1).
Proof.
  intros env down s s1.
  apply (getConsumer_twice env down s). vm_compute. reflexivity.
Defined.

(** X6. If the consumer keys are not cached and cannot be fetched,
    [refreshOAuth2Token] fails with that failure before anything is
    signed: the exchange endpoint is not contacted and the store is
    left as it was. *)
Theorem refreshOAuth2Token_consumer_unavailable env oauth1 s :
  kv s !! CONSUMER_KV_KEY = None ->
  fetch_failed (network env (n_fetch s) consumer_request) ->
  exists e s',
    refreshOAuth2Token env oauth1 s = (Throw e, s')
    /\ UpstreamUnavailable e
    /\ trace s'
       = trace s ++ [ EvRefresh oauth1; EvKvGet CONSUMER_KV_KEY;
                      EvFetch consumer_request
                        (network env (n_fetch s) consumer_request) ]
    /\ kv s' = kv s.
Proof.
  intros Hkv Hfail.
  destruct (getConsumer_miss_fail env (log (EvRefresh oauth1) s)
              (network env (n_fetch s) consumer_request) Hkv eq_refl Hfail)
    as (e & s' & Hrun & He & Htr & Hkv' & _).
  exists e, s'. unfold refreshOAuth2Token, bind, mark. rewrite Hrun.
  split; [reflexivity|]. split; [exact He|]. split; [|exact Hkv'].
  rewrite Htr. cbn. now rewrite <- app_assoc.
Qed.

Lemma refreshOAuth2Token_consumer_unavailable_witness :
  let down :=
    {| clock := fun _ => 0; random := fun _ => [];
       network := fun _ _ => Rejects; url_toString := fun base _ => base |} in
  let s := Example.state (Example.store 0) None in
  exists e s',
    refreshOAuth2Token down Example.oauth1 s = (Throw e, s')
    /\ UpstreamUnavailable e
    /\ trace s'
       = trace s ++ [ EvRefresh Example.oauth1; EvKvGet CONSUMER_KV_KEY;
                      EvFetch consumer_request Rejects ]
    /\ kv s' = kv s.
Proof.
  intros down s.
  apply (refreshOAuth2Token_consumer_unavailable down Example.oauth1 s).
  - vm_compute. reflexivity.
  - exact I.
Defined.

(** X7. [refreshOAuth2Token] never repeats a request and signs for
    the key pair it obtained. Whenever [getConsumer], called first,
    returns a pair, the requests of the run are the consumer key request
    (sent exactly when the pair is not cached) followed by one exchange
    request: the body-less POST whose Authorization header is the one
    signed for that very pair, the first clock reading and the first
    random draw. Whenever [getConsumer] fails on the network or on the
    answer, the consumer key request is the only one. *)
Theorem refreshOAuth2Token_requests env oauth1 s :
  let consumer_fetch :=
    match kv s !! CONSUMER_KV_KEY with
    | Some _ => []
    | None => [consumer_request]
    end in
  exists evs,
    trace (snd (refreshOAuth2Token env oauth1 s)) = trace s ++ evs
    /\ (forall consumer s1,
          getConsumer env (log (EvRefresh oauth1) s) = (Ok consumer, s1) ->
          requests evs
          = consumer_fetch
              ++ [exchange_request (signed_header env s consumer oauth1)])
    /\ (forall e s1,
          getConsumer env (log (EvRefresh oauth1) s) = (Throw e, s1) ->
          e <> ShapeMismatch ->
          requests evs = consumer_fetch).
Proof.
  unfold signed_header. run.
  all: eexists; split; [rewrite <- ?app_assoc; cbn [app]; reflexivity|].
  all: cbn.
  all: split; [intros consumer s1 [= <- <-] | intros e s1 [= <- <-] Hshape];
    try reflexivity; try discriminate; try congruence.
Qed.

Lemma refreshOAuth2Token_requests_witness :
  let env := Example.env Example.exchange_ok (fun _ => Example.denied) in
  let s := Example.state (Example.store 999) None in
  exists evs,
    trace (snd (refreshOAuth2Token env Example.oauth1 s)) = trace s ++ evs
    /\ requests evs
       = [ consumer_request;
           exchange_request
             (signed_header env s Example.consumer Example.oauth1) ].
Proof.
  intros env s.
  destruct (refreshOAuth2Token_requests env Example.oauth1 s)
    as (evs & Htr & Hok & _).
  exists evs. split; [exact Htr|].
  apply (Hok Example.consumer
             (snd (getConsumer env (log (EvRefresh Example.oauth1) s)))).
  vm_compute. reflexivity.
Defined.

Lemma absolute_expiry_keeps now d :
  let data := absolute_expiry now d in
  access_token data = access_token d
  /\ refresh_token data = refresh_token d
  /\ token_type data = token_type d
  /\ scope data = scope d
  /\ jti data = jti d
  /\ expires_in data = expires_in d
  /\ refresh_token_expires_in data = refresh_token_expires_in d.
Proof.
  unfold absolute_expiry.
  destruct (negb (truthy (expires_at d)) && truthy (expires_in d));
    cbn -[Z.add];
    destruct (negb (truthy (refresh_token_expires_at d))
              && truthy (refresh_token_expires_in d));
    repeat split.
Qed.

(** X21. A refresh hands on what the exchange endpoint sent: when the
    exchange request is answered with a 2xx response carrying the
    credential [d], the credential returned and persisted has the
    access token, refresh token, token type, scope, [jti] and relative
    durations of [d]; only the two absolute expiry fields can differ. *)
Theorem refreshOAuth2Token_keeps_tokens env oauth1 s res s' evs req r d :
  refreshOAuth2Token env oauth1 s = (res, s') ->
  trace s' = trace s ++ evs ->
  In (EvFetch req (Responds r)) evs ->
  req_url req = EXCHANGE_URL ->
  ok r = true ->
  json r = Some (DocOAuth2 d) ->
  exists data,
    res = Ok data
    /\ kv s' !! "oauth2_token" = Some (oauth2_entry data)
    /\ access_token data = access_token d
    /\ refresh_token data = refresh_token d
    /\ token_type data = token_type d
    /\ scope data = scope d
    /\ jti data = jti d
    /\ expires_in data = expires_in d
    /\ refresh_token_expires_in data = refresh_token_expires_in d.
Proof.
  intros H Htr Hin Hurl Hok Hjson.
  destruct (refreshOAuth2Token_answered _ _ _ _ _ _ _ _ H Htr Hin Hurl)
    as [Hres Hkv].
  unfold exchange_outcome in Hres. rewrite Hok, Hjson in Hres. cbn in Hres.
  subst res. eexists. split; [reflexivity|]. split; [exact Hkv|].
  apply absolute_expiry_keeps.
Qed.

Lemma refreshOAuth2Token_keeps_tokens_witness :
  let env := Example.env Example.exchange_ok (fun _ => Example.denied) in
  let s := Example.state (Example.store 0) None in
  let run := refreshOAuth2Token env Example.oauth1 s in
  exists data,
    fst run = Ok data
    /\ access_token data = "A" /\ refresh_token data = "B".
Proof.
  intros env s run.
  destruct (refreshOAuth2Token_keeps_tokens env Example.oauth1 s
              (fst run) (snd run) (trace (snd run))
              (exchange_request
                 (buildOAuth1Header_at Example.consumer Example.oauth1
                    "1000" "00000000000000000000000000000000"))
              {| status := 200; text := "{}";
                 json := Some (DocOAuth2 Example.relative_only) |}
              Example.relative_only)
    as (data & Hres & _ & Ha & Hr & _).
  - apply surjective_pairing.
  - reflexivity.
  - vm_compute. do 6 right. left. reflexivity.
  - reflexivity.
  - reflexivity.
  - reflexivity.
  - exists data. split; [exact Hres|]. split; [exact Ha | exact Hr].
Defined.

(** X22. A 2xx answer that is not JSON: [getConsumer] fails with the
    parser's error after its single request and caches nothing, and
    [refreshOAuth2Token] fails with it and leaves the OAuth2 key as it
    was. *)
Theorem unparsable_answers env :
  (forall s r,
      kv s !! CONSUMER_KV_KEY = None ->
      network env (n_fetch s) consumer_request = Responds r ->
      ok r = true -> json r = None ->
      exists s',
        getConsumer env s = (Throw SyntaxError, s')
        /\ kv s' = kv s /\ n_fetch s' = S (n_fetch s))
  /\ (forall oauth1 s res s' evs req r,
        refreshOAuth2Token env oauth1 s = (res, s') ->
        trace s' = trace s ++ evs ->
        In (EvFetch req (Responds r)) evs ->
        req_url req = EXCHANGE_URL ->
        ok r = true -> json r = None ->
        res = Throw SyntaxError
        /\ kv s' !! "oauth2_token" = kv s !! "oauth2_token").
Proof.
  split.
  - intros s r Hkv Hnet Hok Hjson.
    unfold getConsumer, bind, kv_get, fetch. rewrite Hkv. cbn.
    rewrite Hnet, Hok. cbn. unfold resp_json. rewrite Hjson. cbn.
    eexists. repeat split.
  - intros oauth1 s res s' evs req r H Htr Hin Hurl Hok Hjson.
    destruct (refreshOAuth2Token_answered _ _ _ _ _ _ _ _ H Htr Hin Hurl)
      as [Hres Hkv].
    unfold exchange_outcome in Hres. rewrite Hok, Hjson in Hres. cbn in Hres.
    subst res. split; [reflexivity | exact Hkv].
Qed.

Lemma unparsable_answers_witness :
  let html := Example.respond 200 "<html>" None in
  let env :=
    {| clock := fun _ => 1000500; random := fun _ => [];
       network := fun _ _ => html; url_toString := fun base _ => base |} in
  (exists s',
      getConsumer env (Example.state (Example.store 0) None)
      = (Throw SyntaxError, s'))
  /\ fst (refreshOAuth2Token env Example.oauth1
            (Example.state (Example.store_with_consumer 0) None))
     = Throw SyntaxError.
Proof.
  intros html env. split.
  - destruct (proj1 (unparsable_answers env)
                (Example.state (Example.store 0) None)
                {| status := 200; text := "<html>"; json := None |})
      as (s' & H & _);
      [ vm_compute; reflexivity | reflexivity | reflexivity | reflexivity | ].
    now exists s'.
  - pose (s := Example.state (Example.store_with_consumer 0) None).
    pose (run := refreshOAuth2Token env Example.oauth1 s).
    apply (proj2 (unparsable_answers env) Example.oauth1 s
             (fst run) (snd run) (trace (snd run))
             (exchange_request
                (buildOAuth1Header_at Example.consumer Example.oauth1
                   "1000" "00000000000000000000000000000000"))
             {| status := 200; text := "<html>"; json := None |}).
    + apply surjective_pairing.
    + reflexivity.
    + vm_compute. do 4 right. left. reflexivity.
    + reflexivity.
    + reflexivity.
    + reflexivity.
Defined.

(** ** [getAccessToken] across calls *)

(** With an empty cache, a stored credential that the second test does
    not find stale is cached and its access token returned. *)
Lemma getAccessToken_store_hit env s t2 ttl :
  oauth2Cache s = None ->
  kv s !! "oauth2_token"
  = Some {| kv_value := DocOAuth2 t2; kv_expirationTtl := ttl |} ->
  js_le (expires_at t2) (epoch_seconds (clock env (n_now s)) + 60) = false ->
  getAccessToken env s = (Ok (access_token t2), loaded env s t2).
Proof.
  intros Hc Hkv Hle. supplier_unfold. rewrite Hc. cbn. rewrite Hkv. cbn.
  rewrite Hle. cbn. unfold loaded. now rewrite <- app_assoc.
Qed.

(** A token returned by [getAccessToken] is the access token of the
    credential the cache then holds. *)
Lemma getAccessToken_ok_cache env s token s1 :
  getAccessToken env s = (Ok token, s1) ->
  exists c, oauth2Cache s1 = Some c /\ access_token c = token.
Proof.
  intros H. supplier_unfold. cbn in H.
  repeat (first
            [ match type of H with
              | context [refreshOAuth2Token ?e ?o ?s1] =>
                  destruct (refreshOAuth2Token e o s1) as [[?|?] ?]
              end
            | case_scrutinee ];
          cbn in *; try discriminate).
  all: injection H as <- <-; cbn; eauto.
Qed.

(** X8. Two calls in a row: when [getAccessToken] has returned a
    token, the cache holds its credential, and a further call at a time
    when that credential still satisfies [expires_at > now + 60]
    returns the same token after reading the clock only: no store read,
    no request, no refresh. *)
Theorem getAccessToken_twice env env' s token s1 :
  getAccessToken env s = (Ok token, s1) ->
  exists c,
    oauth2Cache s1 = Some c /\ access_token c = token
    /\ (js_gt (expires_at c) (epoch_seconds (clock env' (n_now s1)) + 60)
        = true ->
        getAccessToken env' s1 = (Ok token, clock_read env' s1)).
Proof.
  intros H. destruct (getAccessToken_ok_cache _ _ _ _ H) as (c & Hc & Htok).
  exists c. split; [exact Hc|]. split; [exact Htok|].
  intros Hgt. supplier_unfold. rewrite Hc. cbn. rewrite Hgt. cbn.
  now rewrite Htok.
Qed.

Lemma getAccessToken_twice_witness :
  let env := Example.env Example.exchange_ok (fun _ => Example.denied) in
  let down :=
    {| clock := fun _ => 2000000; random := fun _ => [];
       network := fun _ _ => Rejects; url_toString := fun base _ => base |} in
  let s := Example.state (Example.store 999) None in
  let s1 := snd (getAccessToken env s) in
  getAccessToken down s1 = (Ok "A", clock_read down s1).
Proof.
  intros env down s s1.
  destruct (getAccessToken_twice env down s "A" s1) as (c & Hc & _ & Hagain);
    [vm_compute; reflexivity|].
  apply Hagain.
  assert (Hc' : oauth2Cache s1
                = Some (Example.token "A" (Some 72000) (Some 73000)
                          (Some 2592000) (Some 2593000)))
    by (vm_compute; reflexivity).
  rewrite Hc' in Hc. injection Hc as <-. reflexivity.
Defined.

(** X9. What a refresh has persisted serves the next invocation: in
    any later state with the same store and an empty cache, at a time
    when the returned credential satisfies [expires_at > now + 60],
    [getAccessToken] returns its access token after one store read and
    one clock reading, without a refresh and without a request. *)
Theorem refreshOAuth2Token_then_getAccessToken
    env env' oauth1 s data s' s2 e :
  refreshOAuth2Token env oauth1 s = (Ok data, s') ->
  kv s2 = kv s' ->
  oauth2Cache s2 = None ->
  expires_at data = Some e ->
  epoch_seconds (clock env' (n_now s2)) + 60 < e ->
  getAccessToken env' s2 = (Ok (access_token data), loaded env' s2 data).
Proof.
  intros Hrun Hkv Hc He Hlt.
  destruct (refreshOAuth2Token_ok_inv _ _ _ _ _ Hrun)
    as (_ & _ & _ & _ & _ & _ & _ & _ & _ & Hstored & _).
  apply getAccessToken_store_hit with None; [exact Hc | | ].
  - rewrite Hkv. exact Hstored.
  - rewrite He. unfold js_le. apply Z.leb_gt. exact Hlt.
Qed.

Lemma refreshOAuth2Token_then_getAccessToken_witness :
  let env := Example.env Example.exchange_ok (fun _ => Example.denied) in
  let down :=
    {| clock := fun _ => 2000000; random := fun _ => [];
       network := fun _ _ => Rejects; url_toString := fun base _ => base |} in
  let s := Example.state (Example.store 0) None in
  let data := Example.token "A" (Some 72000) (Some 73000) (Some 2592000)
                (Some 2593000) in
  let s2 := Example.state (kv (snd (refreshOAuth2Token env Example.oauth1 s)))
              None in
  getAccessToken down s2 = (Ok "A", loaded down s2 data).
Proof.
  intros env down s data s2.
  apply (refreshOAuth2Token_then_getAccessToken env down Example.oauth1 s data
           (snd (refreshOAuth2Token env Example.oauth1 s)) s2 73000).
  - vm_compute. reflexivity.
  - vm_compute. reflexivity.
  - reflexivity.
  - reflexivity.
  - vm_compute. reflexivity.
Defined.

(** X10. A stored credential that carries no [expires_at] is never
    found stale: with an empty cache [getAccessToken] returns its
    access token at any time, without a refresh, since the comparison
    of a missing number is false. *)
Theorem getAccessToken_missing_expiry env s t2 ttl :
  oauth2Cache s = None ->
  kv s !! "oauth2_token"
  = Some {| kv_value := DocOAuth2 t2; kv_expirationTtl := ttl |} ->
  expires_at t2 = None ->
  getAccessToken env s = (Ok (access_token t2), loaded env s t2).
Proof.
  intros Hc Hkv He.
  apply getAccessToken_store_hit with ttl; [exact Hc | exact Hkv |].
  now rewrite He.
Qed.

Lemma getAccessToken_missing_expiry_witness :
  let t2 := Example.token "OLD" (Some 0) None (Some 2592000) None in
  let s := Example.state (<["oauth2_token" := oauth2_entry t2]> ∅) None in
  let late :=
    {| clock := fun _ => 9000000000000; random := fun _ => [];
       network := fun _ _ => Rejects; url_toString := fun base _ => base |} in
  getAccessToken late s = (Ok "OLD", loaded late s t2).
Proof.
  intros t2 s late.
  apply (getAccessToken_missing_expiry late s t2 None); reflexivity.
Defined.

(** X23. A call of [getAccessToken] that does not refresh changes
    nothing outside the client: the store is exactly as before and no
    request has been sent. *)
Theorem getAccessToken_without_refresh env s evs :
  trace (snd (getAccessToken env s)) = trace s ++ evs ->
  refresh_calls evs = [] ->
  kv (snd (getAccessToken env s)) = kv s
  /\ n_fetch (snd (getAccessToken env s)) = n_fetch s
  /\ requests evs = [].
Proof.
  intros Htr Hcalls. revert Htr. supplier_unfold. cbn.
  repeat (first
            [ match goal with
              | |- context [refreshOAuth2Token ?e ?o ?s1] =>
                  destruct (refreshOAuth2Token_trace e o s1) as (? & ? & ?);
                  destruct (refreshOAuth2Token e o s1) as [[?|?] ?]
              end
            | case_scrutinee ];
          cbn in *; try discriminate).
  all: try match goal with
           | H : trace _ = _ ++ EvRefresh _ :: _ |- _ => rewrite H
           end.
  all: rewrite <- ?app_assoc; cbn [app]; intros Htr;
    apply app_inv_head in Htr; subst evs.
  all: try (cbn in Hcalls; rewrite ?refresh_calls_app in Hcalls;
            cbn in Hcalls; discriminate Hcalls).
  all: repeat split.
Qed.

Lemma getAccessToken_without_refresh_witness :
  let env := Example.env Example.exchange_ok (fun _ => Example.denied) in
  let s := Example.state (Example.store 4600) None in
  kv (snd (getAccessToken env s)) = kv s
  /\ n_fetch (snd (getAccessToken env s)) = n_fetch s
  /\ requests [EvKvGet "oauth2_token"; EvNow 1000500] = [].
Proof.
  intros env s.
  apply (getAccessToken_without_refresh env s
           [EvKvGet "oauth2_token"; EvNow 1000500]); reflexivity.
Defined.

(** ** [get], [post], [put] on their first answer *)

(** X11. The retry of [get] decides the call: after a first answer 401
    or 403 and a token obtained again, the answer to the second request
    is terminal. A non-2xx answer (a second 401 included) is thrown as
    the API error of the retry, a 204 gives [null], any other 2xx gives
    its JSON body; in each case exactly one more request was sent. *)
Theorem get_unauthorized_retry
    env path params s token s1 r freshToken s3 retry :
  let url := url_toString env (GARMIN_BASE +:+ path) params in
  let s4 := answered (get_request url freshToken) (Responds retry) s3 in
  getAccessToken env s = (Ok token, s1) ->
  network env (n_fetch s1) (get_request url token) = Responds r ->
  unauthorized r ->
  getAccessToken env
    (invalidated (answered (get_request url token) (Responds r) s1))
  = (Ok freshToken, s3) ->
  network env (n_fetch s3) (get_request url freshToken) = Responds retry ->
  (ok retry = false ->
   get env path params s = (Throw (api_error retry), s4)
   /\ ApiError (status retry) (text retry) (api_error retry))
  /\ (status retry = 204 -> get env path params s = (Ok None, s4))
  /\ (forall d, ok retry = true -> status retry <> 204 ->
                json retry = Some d ->
                get env path params s = (Ok (Some d), s4)).
Proof.
  intros url s4 Htok Hnet Hr Hfresh Hretry.
  pose proof (get_retries_once env path params s token s1 r freshToken s3
                retry Htok Hnet Hr Hfresh Hretry) as H.
  fold url in H. fold s4 in H. rewrite H. unfold retry_outcome.
  split; [|split].
  - intros Hok. rewrite Hok. split; reflexivity.
  - intros H204. unfold ok. rewrite H204. reflexivity.
  - intros d Hok H204 Hjson. rewrite Hok, Hjson. cbn.
    apply Z.eqb_neq in H204. now rewrite H204.
Qed.

Lemma get_unauthorized_retry_witness :
  let api n :=
    match n with
    | O => Example.denied
    | _ => Example.respond 200 "[]" (Some (DocJson "[]"))
    end in
  let env := Example.env Example.exchange_ok api in
  let s := Example.state (Example.store 4600) None in
  fst (get env "/hrv-service/hrv/2024-01-01" [] s) = Ok (Some (DocJson "[]"))
  /\ n_fetch (snd (get env "/hrv-service/hrv/2024-01-01" [] s)) = 2%nat.
Proof.
  intros api env s.
  pose (url := GARMIN_BASE +:+ "/hrv-service/hrv/2024-01-01").
  pose (s1 := snd (getAccessToken env s)).
  pose (s2 := invalidated (answered (get_request url "OLD")
                             Example.denied s1)).
  destruct (get_unauthorized_retry env "/hrv-service/hrv/2024-01-01" [] s
              "OLD" s1 {| status := 401; text := "denied"; json := None |}
              "OLD" (snd (getAccessToken env s2))
              {| status := 200; text := "[]"; json := Some (DocJson "[]") |})
    as (_ & _ & Hok).
  - vm_compute. reflexivity.
  - reflexivity.
  - now left.
  - vm_compute. reflexivity.
  - reflexivity.
  - rewrite (Hok (DocJson "[]")); [| reflexivity | discriminate | reflexivity].
    split; reflexivity.
Defined.

(** X12. A first answer 204 ends [get], [post] and [put] with [null]
    after that single request; the body is not looked at and the token
    cache is left alone. *)
Theorem executor_no_content env path params body s token s1 :
  getAccessToken env s = (Ok token, s1) ->
  (forall r,
      let req :=
        get_request (url_toString env (GARMIN_BASE +:+ path) params) token in
      network env (n_fetch s1) req = Responds r -> status r = 204 ->
      get env path params s = (Ok None, answered req (Responds r) s1))
  /\ (forall r,
        let req := body_request "POST" (GARMIN_BASE +:+ path) token body in
        network env (n_fetch s1) req = Responds r -> status r = 204 ->
        post env path body s = (Ok None, answered req (Responds r) s1))
  /\ (forall r,
        let req := body_request "PUT" (GARMIN_BASE +:+ path) token body in
        network env (n_fetch s1) req = Responds r -> status r = 204 ->
        put env path body s = (Ok None, answered req (Responds r) s1)).
Proof.
  intros Htok. split; [|split]; intros r req Hnet H204.
  - unfold get, bind. rewrite Htok. fold req.
    rewrite (fetch_responds _ _ _ _ Hnet), H204. reflexivity.
  - unfold post, bind. rewrite Htok. fold req.
    rewrite (fetch_responds _ _ _ _ Hnet), H204. reflexivity.
  - unfold put, bind. rewrite Htok. fold req.
    rewrite (fetch_responds _ _ _ _ Hnet), H204. reflexivity.
Qed.

Lemma executor_no_content_witness :
  let env :=
    Example.env Example.exchange_ok
      (fun _ => Example.respond 204 "ignored" None) in
  let s := Example.state (Example.store 4600) None in
  fst (get env "/x" [] s) = Ok None
  /\ fst (post env "/x" (DocJson "{}") s) = Ok None
  /\ fst (put env "/x" (DocJson "{}") s) = Ok None.
Proof.
  intros env s.
  destruct (executor_no_content env "/x" [] (DocJson "{}") s "OLD"
              (snd (getAccessToken env s))) as (Hget & Hpost & Hput);
    [vm_compute; reflexivity|].
  pose (r := {| status := 204; text := "ignored"; json := None |}).
  rewrite (Hget r), (Hpost r), (Hput r); try reflexivity.
  repeat split.
Defined.

(** X13. A first answer of [get] that is neither 2xx nor 401 nor 403
    is thrown at once as the API error with its status and body: one
    request, no retry, the token cache untouched. *)
Theorem get_error_no_retry env path params s token s1 r :
  let req :=
    get_request (url_toString env (GARMIN_BASE +:+ path) params) token in
  getAccessToken env s = (Ok token, s1) ->
  network env (n_fetch s1) req = Responds r ->
  ok r = false -> status r <> 401 -> status r <> 403 ->
  get env path params s
  = (Throw (api_error r), answered req (Responds r) s1)
  /\ ApiError (status r) (text r) (api_error r).
Proof.
  intros req Htok Hnet Hok H401 H403. split; [|reflexivity].
  unfold get, bind. rewrite Htok. fold req.
  rewrite (fetch_responds _ _ _ _ Hnet), Hok.
  apply Z.eqb_neq in H401, H403. rewrite H401, H403.
  assert (H204 : (status r =? 204) = false).
  { apply Z.eqb_neq. intros E. unfold ok in Hok. rewrite E in Hok.
    discriminate Hok. }
  rewrite H204. reflexivity.
Qed.

Lemma get_error_no_retry_witness :
  let env :=
    Example.env Example.exchange_ok
      (fun _ => Example.respond 500 "boom" None) in
  let s := Example.state (Example.store 4600) None in
  fst (get env "/x" [] s) = Throw (Error "Garmin API error (500): boom")
  /\ n_fetch (snd (get env "/x" [] s)) = 1%nat.
Proof.
  intros env s.
  destruct (get_error_no_retry env "/x" [] s "OLD"
              (snd (getAccessToken env s))
              {| status := 500; text := "boom"; json := None |})
    as [H _];
    [ vm_compute; reflexivity | reflexivity | reflexivity | discriminate
    | discriminate | ].
  rewrite H. split; reflexivity.
Defined.

(** X14. An empty 2xx body: [post] and [put] return [null] without
    parsing it, while [get] parses every 2xx body other than a 204 and
    throws the parser's error when it is not JSON. *)
Theorem executor_empty_body env path params body s token s1 :
  getAccessToken env s = (Ok token, s1) ->
  (forall r,
      let req := body_request "POST" (GARMIN_BASE +:+ path) token body in
      network env (n_fetch s1) req = Responds r ->
      ok r = true -> status r <> 204 -> text r = EmptyString ->
      post env path body s = (Ok None, answered req (Responds r) s1))
  /\ (forall r,
        let req := body_request "PUT" (GARMIN_BASE +:+ path) token body in
        network env (n_fetch s1) req = Responds r ->
        ok r = true -> status r <> 204 -> text r = EmptyString ->
        put env path body s = (Ok None, answered req (Responds r) s1))
  /\ (forall r,
        let req :=
          get_request (url_toString env (GARMIN_BASE +:+ path) params) token in
        network env (n_fetch s1) req = Responds r ->
        ok r = true -> status r <> 204 -> json r = None ->
        get env path params s
        = (Throw SyntaxError, answered req (Responds r) s1)).
Proof.
  intros Htok. split; [|split]; intros r req Hnet Hok H204 Hbody;
    apply Z.eqb_neq in H204.
  - unfold post, bind. rewrite Htok. fold req.
    rewrite (fetch_responds _ _ _ _ Hnet), H204, Hok. cbn.
    unfold parse_text. now rewrite Hbody.
  - unfold put, bind. rewrite Htok. fold req.
    rewrite (fetch_responds _ _ _ _ Hnet), H204, Hok. cbn.
    unfold parse_text. now rewrite Hbody.
  - unfold get, bind. rewrite Htok. fold req.
    rewrite (fetch_responds _ _ _ _ Hnet), H204.
    assert (H401 : (status r =? 401) || (status r =? 403) = false).
    { unfold ok in Hok. apply andb_true_iff in Hok. destruct Hok as [_ Hle].
      apply Z.leb_le in Hle. apply orb_false_iff.
      split; apply Z.eqb_neq; lia. }
    rewrite H401, Hok. cbn. unfold resp_json. now rewrite Hbody.
Qed.

Lemma executor_empty_body_witness :
  let env :=
    Example.env Example.exchange_ok
      (fun _ => Example.respond 200 EmptyString None) in
  let s := Example.state (Example.store 4600) None in
  fst (post env "/x" (DocJson "{}") s) = Ok None
  /\ fst (put env "/x" (DocJson "{}") s) = Ok None
  /\ fst (get env "/x" [] s) = Throw SyntaxError.
Proof.
  intros env s.
  destruct (executor_empty_body env "/x" [] (DocJson "{}") s "OLD"
              (snd (getAccessToken env s))) as (Hpost & Hput & Hget);
    [vm_compute; reflexivity|].
  pose (r := {| status := 200; text := EmptyString; json := None |}).
  rewrite (Hpost r), (Hput r), (Hget r); try reflexivity; try discriminate.
  repeat split.
Defined.

(** X15. When the token supplier fails, [get], [post] and [put] fail
    with the same error in the state the supplier left: no request is
    sent to the data API. *)
Theorem executor_supplier_failure env path params body s e s1 :
  getAccessToken env s = (Throw e, s1) ->
  get env path params s = (Throw e, s1)
  /\ post env path body s = (Throw e, s1)
  /\ put env path body s = (Throw e, s1).
Proof.
  intros H. unfold get, post, put, bind. rewrite H. repeat split.
Qed.

Lemma executor_supplier_failure_witness :
  let env := Example.env Example.exchange_ok (fun _ => Example.denied) in
  let s := Example.state ∅ None in
  let s1 := log (EvKvGet "oauth2_token") s in
  get env "/x" [] s = (Throw (Error NO_OAUTH2), s1)
  /\ post env "/x" (DocJson "{}") s = (Throw (Error NO_OAUTH2), s1)
  /\ put env "/x" (DocJson "{}") s = (Throw (Error NO_OAUTH2), s1).
Proof.
  intros env s s1.
  apply (executor_supplier_failure env "/x" [] (DocJson "{}") s).
  reflexivity.
Defined.

(** Started with an empty cache, a successful [getAccessToken] leaves
    the credential of the token it returns both in the cache and under
    the OAuth2 key of the store. *)
Lemma getAccessToken_ok_stored env s token s1 :
  oauth2Cache s = None ->
  getAccessToken env s = (Ok token, s1) ->
  exists c ttl,
    oauth2Cache s1 = Some c /\ access_token c = token
    /\ kv s1 !! "oauth2_token"
       = Some {| kv_value := DocOAuth2 c; kv_expirationTtl := ttl |}.
Proof.
  intros Hc H. supplier_unfold. rewrite Hc in H. cbn in H.
  destruct (kv s !! "oauth2_token") as [[v ttl]|] eqn:Hkv; cbn in H;
    [|discriminate].
  destruct v as [?|t2|?|?]; cbn in H; try discriminate.
  destruct (js_le (expires_at t2) _); cbn in H.
  - destruct (kv s !! "oauth1_token") as [[[o|?|?|?] ?]|]; cbn in H;
      try discriminate.
    destruct (refreshOAuth2Token env o _) as [[data|?] s'] eqn:Href;
      cbn in H; [|discriminate].
    injection H as <- <-. cbn.
    destruct (refreshOAuth2Token_ok_inv _ _ _ _ _ Href)
      as (_ & _ & _ & _ & _ & _ & _ & _ & _ & Hstored & _).
    exists data, None. repeat split. exact Hstored.
  - injection H as <- <-. cbn. exists t2, ttl. repeat split. exact Hkv.
Qed.

(** X16. Invalidating the cache does not by itself force a refresh: in
    an invocation started with an empty cache, when the first answer of
    [get] is 401 or 403 and the credential in use is still not stale at
    the next clock reading, the token is reloaded from the store and
    the retry is the very same request, with the same bearer token, and
    its answer decides the call. *)
Theorem get_retry_reuses_stored_token env path params s token s1 r retry :
  let req :=
    get_request (url_toString env (GARMIN_BASE +:+ path) params) token in
  oauth2Cache s = None ->
  getAccessToken env s = (Ok token, s1) ->
  network env (n_fetch s1) req = Responds r ->
  unauthorized r ->
  (forall c, oauth2Cache s1 = Some c ->
             js_le (expires_at c) (epoch_seconds (clock env (n_now s1)) + 60)
             = false) ->
  network env (S (n_fetch s1)) req = Responds retry ->
  exists s4,
    get env path params s = (retry_outcome retry, s4)
    /\ trace s4
       = trace s1 ++ [ EvFetch req (Responds r);
                       EvKvGet "oauth2_token";
                       EvNow (clock env (n_now s1));
                       EvFetch req (Responds retry) ].
Proof.
  intros req Hc Htok Hnet Hr Hfresh Hretry.
  destruct (getAccessToken_ok_stored _ _ _ _ Hc Htok)
    as (c & ttl & Hcache & Haccess & Hstored).
  pose (s2 := invalidated (answered req (Responds r) s1)).
  assert (Hagain : getAccessToken env s2 = (Ok token, loaded env s2 c)).
  { rewrite <- Haccess. apply getAccessToken_store_hit with ttl.
    - reflexivity.
    - exact Hstored.
    - apply (Hfresh c Hcache). }
  eexists. split.
  - apply (get_retries_once env path params s token s1 r token
             (loaded env s2 c) retry Htok Hnet Hr Hagain Hretry).
  - cbn. rewrite <- !app_assoc. reflexivity.
Qed.

Lemma get_retry_reuses_stored_token_witness :
  let env := Example.env Example.exchange_ok (fun _ => Example.denied) in
  let s := Example.state (Example.store 4600) None in
  let req := get_request (GARMIN_BASE +:+ "/x") "OLD" in
  fst (get env "/x" [] s) = Throw (Error "Garmin API error (401): denied")
  /\ requests (trace (snd (get env "/x" [] s))) = [req; req].
Proof.
  intros env s req.
  destruct (get_retry_reuses_stored_token env "/x" [] s "OLD"
              (snd (getAccessToken env s))
              {| status := 401; text := "denied"; json := None |}
              {| status := 401; text := "denied"; json := None |})
    as (s4 & Hrun & Htr).
  - reflexivity.
  - vm_compute. reflexivity.
  - reflexivity.
  - now left.
  - intros c Hc. vm_compute in Hc. injection Hc as <-. reflexivity.
  - reflexivity.
  - rewrite Hrun. cbn [fst snd]. rewrite Htr. split; reflexivity.
Defined.

(** ** The Worker's entry point *)

Lemma rejected_key_false API_KEY h :
  Worker.rejected_key API_KEY h = false <-> h = Some ("Bearer " +:+ API_KEY).
Proof.
  unfold Worker.rejected_key. destruct h as [h|]; [|split; discriminate].
  rewrite orb_false_iff, negb_false_iff, String.eqb_eq, String.eqb_neq.
  split.
  - intros [_ ->]. reflexivity.
  - intros [= ->]. split; [discriminate | reflexivity].
Qed.

(** X17. A request reaches the MCP transport exactly when it is a POST
    to [/mcp] whose Authorization header is [Bearer ] followed by the
    configured API key, whose body parses, and whose first message
    either has a truthy id or has a method that is absent, [null] or a
    string not starting with [notifications/]; the transport then gets
    the body as parsed. *)
Theorem worker_dispatch_iff API_KEY request body :
  Worker.fetch API_KEY request = Worker.Dispatched body
  <-> Worker.in_method request = "POST"
      /\ Worker.in_pathname request = "/mcp"
      /\ Worker.in_authorization request = Some ("Bearer " +:+ API_KEY)
      /\ Worker.in_json request = Some body
      /\ (Worker.id_truthy (Worker.first_message body) = true
          \/ Worker.method_is_notification (Worker.first_message body)
             = Some false).
Proof.
  unfold Worker.fetch. split.
  - destruct (String.eqb_spec (Worker.in_method request) "OPTIONS");
      [discriminate|].
    destruct (String.eqb_spec (Worker.in_pathname request) "/"); [discriminate|].
    destruct (String.eqb_spec (Worker.in_pathname request) "/health");
      [discriminate|].
    destruct (String.eqb_spec (Worker.in_pathname request) "/mcp"); [|discriminate].
    cbn [orb negb].
    destruct (Worker.rejected_key API_KEY (Worker.in_authorization request)) eqn:Hk;
      [discriminate|].
    apply rejected_key_false in Hk.
    destruct (String.eqb_spec (Worker.in_method request) "DELETE"); [discriminate|].
    destruct (String.eqb_spec (Worker.in_method request) "POST"); [|discriminate].
    cbn [negb].
    destruct (Worker.in_json request) as [b|]; [|discriminate].
    destruct (Worker.id_truthy (Worker.first_message b)) eqn:Hid;
      [|destruct (Worker.method_is_notification (Worker.first_message b))
          as [[|]|] eqn:Hm]; try discriminate;
      intros [= <-]; rewrite ?Hid, ?Hm; repeat split; auto.
  - intros (Hm & Hp & Ha & Hj & Hn).
    rewrite Hm, Hp, Hj. cbn [String.eqb Ascii.eqb Bool.eqb orb negb].
    apply rejected_key_false in Ha. rewrite Ha.
    destruct Hn as [-> | ->]; [reflexivity|].
    now destruct (Worker.id_truthy (Worker.first_message body)).
Qed.

Lemma worker_dispatch_iff_witness :
  let call :=
    {| Worker.rpc_id := Worker.JsNumber (SpecFloat.S754_finite false 7 0);
       Worker.rpc_method := Worker.JsString "tools/call" |} in
  let request :=
    {| Worker.in_method := "POST"; Worker.in_pathname := "/mcp";
       Worker.in_authorization := Some "Bearer k3y";
       Worker.in_json := Some (Worker.One call) |} in
  Worker.fetch "k3y" request = Worker.Dispatched (Worker.One call).
Proof.
  intros call request.
  apply (proj2 (worker_dispatch_iff "k3y" request (Worker.One call))).
  repeat split. now left.
Defined.

(** X18. Preflight and health check come before everything else: an
    OPTIONS request is answered 204 whatever its path, and any other
    request to [/] or [/health] is answered 200, both without looking
    at the Authorization header or at the body. *)
Theorem worker_open_paths API_KEY request :
  (Worker.in_method request = "OPTIONS" ->
   Worker.fetch API_KEY request
   = Worker.Replied (Worker.corsResponse 204 None))
  /\ (Worker.in_method request <> "OPTIONS" ->
      Worker.in_pathname request = "/"
      \/ Worker.in_pathname request = "/health" ->
      Worker.fetch API_KEY request
      = Worker.Replied
          (Worker.corsResponse 200 (Some "Garmin MCP Cloud — OK"))).
Proof.
  unfold Worker.fetch. split.
  - intros ->. reflexivity.
  - intros Hm Hp. apply String.eqb_neq in Hm. rewrite Hm.
    destruct Hp as [-> | ->]; reflexivity.
Qed.

Lemma worker_open_paths_witness :
  Worker.fetch "k3y"
    {| Worker.in_method := "OPTIONS"; Worker.in_pathname := "/nowhere";
       Worker.in_authorization := None; Worker.in_json := None |}
  = Worker.Replied (Worker.corsResponse 204 None)
  /\ Worker.fetch "k3y"
       {| Worker.in_method := "DELETE"; Worker.in_pathname := "/health";
          Worker.in_authorization := Some "Bearer wrong";
          Worker.in_json := None |}
     = Worker.Replied
         (Worker.corsResponse 200 (Some "Garmin MCP Cloud — OK")).
Proof.
  split.
  - apply (proj1 (worker_open_paths "k3y" _)). reflexivity.
  - apply (proj2 (worker_open_paths "k3y" _)); [discriminate | now right].
Defined.

(** X19. Without the exact header [Bearer <API key>] nothing behind
    [/mcp] is reachable: every request to [/mcp] other than OPTIONS
    whose Authorization header is missing or different is answered 401,
    whatever its method and body; and the handler only ever fails (on
    a body that does not parse, or on a method that is not a string)
    for a POST to [/mcp] that carries the key. *)
Theorem worker_unauthorized API_KEY request :
  (Worker.in_method request <> "OPTIONS" ->
   Worker.in_pathname request = "/mcp" ->
   Worker.in_authorization request <> Some ("Bearer " +:+ API_KEY) ->
   Worker.fetch API_KEY request
   = Worker.Replied (Worker.corsResponse 401 (Some "Unauthorized")))
  /\ (Worker.fetch API_KEY request = Worker.JsonRejected
      \/ Worker.fetch API_KEY request = Worker.NotAFunction ->
      Worker.in_authorization request = Some ("Bearer " +:+ API_KEY)
      /\ Worker.in_method request = "POST"
      /\ Worker.in_pathname request = "/mcp").
Proof.
  unfold Worker.fetch. split.
  - intros Hm -> Ha. apply String.eqb_neq in Hm. rewrite Hm.
    cbn [String.eqb Ascii.eqb Bool.eqb orb negb].
    destruct (Worker.rejected_key API_KEY (Worker.in_authorization request))
      eqn:Hk; [reflexivity|].
    apply rejected_key_false in Hk. contradiction.
  - assert (Hno : forall r,
               Worker.Replied r = Worker.JsonRejected
               \/ Worker.Replied r = Worker.NotAFunction -> False)
      by (intros r [?|?]; discriminate).
    destruct (String.eqb_spec (Worker.in_method request) "OPTIONS");
      [intros H; destruct (Hno _ H)|].
    destruct (String.eqb_spec (Worker.in_pathname request) "/");
      [intros H; destruct (Hno _ H)|].
    destruct (String.eqb_spec (Worker.in_pathname request) "/health");
      [intros H; destruct (Hno _ H)|].
    destruct (String.eqb_spec (Worker.in_pathname request) "/mcp");
      [|intros H; destruct (Hno _ H)].
    cbn [orb negb].
    destruct (Worker.rejected_key API_KEY (Worker.in_authorization request))
      eqn:Hk; [intros H; destruct (Hno _ H)|].
    apply rejected_key_false in Hk.
    destruct (String.eqb_spec (Worker.in_method request) "DELETE");
      [intros H; destruct (Hno _ H)|].
    destruct (String.eqb_spec (Worker.in_method request) "POST");
      [|intros H; destruct (Hno _ H)].
    intros _. repeat split; assumption.
Qed.

Lemma worker_unauthorized_witness :
  Worker.fetch "k3y"
    {| Worker.in_method := "POST"; Worker.in_pathname := "/mcp";
       Worker.in_authorization := Some "Bearer K3Y"; Worker.in_json := None |}
  = Worker.Replied (Worker.corsResponse 401 (Some "Unauthorized")).
Proof.
  apply (proj1 (worker_unauthorized "k3y" _)); [discriminate | reflexivity |].
  discriminate.
Defined.

(** X20. A batch is judged by its first message alone: an authorized
    POST whose body is an array starting with a message of a
    [notifications/] method and no truthy id (none, [null], [false],
    [0] or the empty string) is answered 202, and none of the messages
    that follow reaches the transport. *)
Theorem worker_batch_first_message API_KEY request m rest :
  Worker.in_method request = "POST" ->
  Worker.in_pathname request = "/mcp" ->
  Worker.in_authorization request = Some ("Bearer " +:+ API_KEY) ->
  Worker.in_json request = Some (Worker.Batch (m :: rest)) ->
  Worker.id_truthy (Some m) = false ->
  Worker.method_is_notification (Some m) = Some true ->
  Worker.fetch API_KEY request
  = Worker.Replied (Worker.corsResponse 202 None).
Proof.
  intros Hm Hp Ha Hj Hid Hn. unfold Worker.fetch.
  rewrite Hm, Hp, Hj. cbn [String.eqb Ascii.eqb Bool.eqb orb negb].
  apply rejected_key_false in Ha. rewrite Ha.
  cbn [Worker.first_message head]. now rewrite Hid, Hn.
Qed.

Lemma worker_batch_first_message_witness :
  let note :=
    {| Worker.rpc_id := Worker.JsNumber (SpecFloat.S754_zero false);
       Worker.rpc_method := Worker.JsString "notifications/initialized" |} in
  let call :=
    {| Worker.rpc_id := Worker.JsNumber (SpecFloat.S754_finite false 7 0);
       Worker.rpc_method := Worker.JsString "tools/call" |} in
  Worker.fetch "k3y"
    {| Worker.in_method := "POST"; Worker.in_pathname := "/mcp";
       Worker.in_authorization := Some "Bearer k3y";
       Worker.in_json := Some (Worker.Batch [note; call]) |}
  = Worker.Replied (Worker.corsResponse 202 None).
Proof.
  intros note call.
  apply (worker_batch_first_message "k3y" _ note [call]); reflexivity.
Defined.

(** X24. A first message whose [method] is a boolean, a number, an
    object or an array makes an authorized POST fail with the
    [TypeError] of calling [startsWith] when its id is not truthy,
    and is handed to the transport unexamined when its id is truthy. *)
Theorem worker_method_not_string API_KEY request body m :
  Worker.in_method request = "POST" ->
  Worker.in_pathname request = "/mcp" ->
  Worker.in_authorization request = Some ("Bearer " +:+ API_KEY) ->
  Worker.in_json request = Some body ->
  Worker.first_message body = Some m ->
  Worker.method_is_notification (Some m) = None ->
  Worker.fetch API_KEY request
  = if Worker.value_truthy (Worker.rpc_id m) then Worker.Dispatched body
    else Worker.NotAFunction.
Proof.
  intros Hm Hp Ha Hj Hf Hn. unfold Worker.fetch.
  rewrite Hm, Hp, Hj. cbn [String.eqb Ascii.eqb Bool.eqb orb negb].
  apply rejected_key_false in Ha. rewrite Ha, Hf, Hn.
  reflexivity.
Qed.

Lemma worker_method_not_string_witness :
  let odd :=
    {| Worker.rpc_id := Worker.JsUndefined;
       Worker.rpc_method := Worker.JsNumber (SpecFloat.S754_finite false 5 0)
    |} in
  Worker.fetch "k3y"
    {| Worker.in_method := "POST"; Worker.in_pathname := "/mcp";
       Worker.in_authorization := Some "Bearer k3y";
       Worker.in_json := Some (Worker.One odd) |}
  = Worker.NotAFunction.
Proof.
  intros odd.
  apply (worker_method_not_string "k3y" _ (Worker.One odd) odd); reflexivity.
Defined.
